(** * Merging accounts: [gittip/elsewhere/take_over.py]

    A shallow embedding of [NeedConfirmation] and [take_over], together
    with the relational tables the function reads and writes, and the
    properties of the merge workflow proved over that embedding. *)

From Stdlib Require Import ZArith List String Ascii Bool Lia Arith.
Import ListNotations.
Local Open Scope string_scope.
Local Open Scope list_scope.
Local Open Scope Z_scope.

(** Equality of handles, platforms and user ids. *)
Infix "==" := String.eqb (at level 70, no associativity).

(* ================================================================== *)
(** ** Tables *)

(** A row of [participants].  [claimed_time] is [None] for a stub. *)
Record participant_row := mkParticipant
  { username : string
  ; username_lower : string
  ; claimed_time : option Z
  ; session_token : option string
  ; session_expires : option Z }.

(** A row of [elsewhere]; the column [participant] is the owner. *)
Record elsewhere_row := mkElsewhere
  { platform : string
  ; user_id : string
  ; participant : string }.

(** A row of [tips].  Amounts are in cents, times are instants. *)
Record tip := mkTip
  { ctime : Z
  ; tipper : string
  ; tippee : string
  ; amount : Z
  ; mtime : Z }.

(** A row of [absorptions]. *)
Record absorption := mkAbsorption
  { absorbed_was : string
  ; absorbed_by : string
  ; archived_as : string }.

(** The database as seen through the cursor. *)
Record store := mkStore
  { participants : list participant_row
  ; elsewhere : list elsewhere_row
  ; tips : list tip
  ; absorptions : list absorption }.

Definition set_participants (ps : list participant_row) (db : store) : store :=
  mkStore ps (elsewhere db) (tips db) (absorptions db).

Definition set_elsewhere (es : list elsewhere_row) (db : store) : store :=
  mkStore (participants db) es (tips db) (absorptions db).

Definition set_tips (ts : list tip) (db : store) : store :=
  mkStore (participants db) (elsewhere db) ts (absorptions db).

Definition set_absorptions (rs : list absorption) (db : store) : store :=
  mkStore (participants db) (elsewhere db) (tips db) rs.

(* ================================================================== *)
(** ** Exceptions and the cursor monad *)

(** The constraint a statement broke, as the server reports it.
    psycopg2 raises the one class [IntegrityError] for all of them. *)
Inductive violation :=
| unique_violation
| foreign_key_violation
| not_null_violation
| check_violation.

(** [class NeedConfirmation(Exception)]: the three facts [_all]. *)
Record NeedConfirmation := mkNeedConfirmation
  { other_is_a_real_participant : bool
  ; this_is_others_last_account_elsewhere : bool
  ; we_already_have_that_kind_of_account : bool }.

(** [NeedConfirmation.__nonzero__]: [A, B, C = self._all; return A or C]. *)
Definition nonzero (n : NeedConfirmation) : bool :=
  let A := other_is_a_real_participant n in
  let C := we_already_have_that_kind_of_account n in
  A || C.

(** [NeedConfirmation.__eq__]: equality of the triples. *)
Definition nc_eq (n m : NeedConfirmation) : bool :=
  Bool.eqb (other_is_a_real_participant n) (other_is_a_real_participant m)
  && Bool.eqb (this_is_others_last_account_elsewhere n)
              (this_is_others_last_account_elsewhere m)
  && Bool.eqb (we_already_have_that_kind_of_account n)
              (we_already_have_that_kind_of_account m).

(** [NeedConfirmation.__ne__]: [not self.__eq__(other)]. *)
Definition nc_ne (n m : NeedConfirmation) : bool := negb (nc_eq n m).

(** [%r] of a [bool]. *)
Definition repr_bool (b : bool) : string :=
  if b then "True" else "False".

(** [NeedConfirmation.__repr__], which is [__str__] too:
    ["<NeedConfirmation: %r %r %r>" % self._all]. *)
Definition nc_repr (n : NeedConfirmation) : string :=
  String.append "<NeedConfirmation: "
    (String.append (repr_bool (other_is_a_real_participant n))
       (String.append " "
          (String.append (repr_bool (this_is_others_last_account_elsewhere n))
             (String.append " "
                (String.append
                   (repr_bool (we_already_have_that_kind_of_account n))
                   ">"))))).

(** The classes of [psycopg2.DatabaseError] a statement can raise. *)
Inductive database_error :=
| IntegrityError (v : violation)
| OperationalError
| InternalError
| DataError.

Inductive exn :=
| ExnNeedConfirmation (n : NeedConfirmation)
| AssertionError
| DatabaseError (e : database_error).

(** What running a piece of code gives: a value, an exception, or a loop
    that is still running when the fuel is spent. *)
Inductive result (A : Type) :=
| Return (a : A)
| Raise (e : exn)
| Spinning.

Arguments Return {A} a.
Arguments Raise {A} e.
Arguments Spinning {A}.

(** Code running against the cursor: the store is threaded through and
    is returned as it stands when the code stops, also on an exception. *)
Definition M (A : Type) : Type := store -> result A * store.

Definition ret {A} (a : A) : M A := fun db => (Return a, db).

Definition raise {A} (e : exn) : M A := fun db => (Raise e, db).

Definition bind {A B} (m : M A) (k : A -> M B) : M B :=
  fun db =>
    match m db with
    | (Return a, db') => k a db'
    | (Raise e, db') => (Raise e, db')
    | (Spinning, db') => (Spinning, db')
    end.

Notation "x <- m ;; k" := (bind m (fun x => k))
  (at level 61, m at next level, right associativity).
Notation "m ;;; k" := (bind m (fun _ => k))
  (at level 61, right associativity).

(** [assert b]. *)
Definition assert (b : bool) : M unit :=
  if b then ret tt else raise AssertionError.

(** A query: reads the store. *)
Definition query {A} (q : store -> A) : M A := fun db => (Return (q db), db).

(** A statement that cannot fail: rewrites the store. *)
Definition execute (f : store -> store) : M unit := fun db => (Return tt, f db).

(* ================================================================== *)
(** ** Strings *)

(** [unicode.lower], on the ASCII letters. *)
Definition lower_ascii (c : ascii) : ascii :=
  let n := nat_of_ascii c in
  if (Nat.leb 65 n && Nat.leb n 90)%bool then ascii_of_nat (n + 32) else c.

Fixpoint lower (s : string) : string :=
  match s with
  | EmptyString => EmptyString
  | String c s' => String (lower_ascii c) (lower s')
  end.

Definition is_None {A} (o : option A) : bool :=
  match o with None => true | Some _ => false end.

(* ================================================================== *)
(** ** The queries on [tips] *)

Definition same_pair (a b : string) (r : tip) : bool :=
  (tipper r == a) && (tippee r == b).

(** The row of greatest [mtime]; among rows that share the greatest
    [mtime] (the server leaves that choice open) the first one. *)
Fixpoint newest (rows : list tip) : option tip :=
  match rows with
  | [] => None
  | r :: rest =>
      match newest rest with
      | Some r' => if mtime r <? mtime r' then Some r' else Some r
      | None => Some r
      end
  end.

(** The current tip from [a] to [b]. *)
Definition latest (ts : list tip) (a b : string) : option tip :=
  newest (filter (same_pair a b) ts).

(** Its amount; no row at all counts as no tip. *)
Definition current_amount (ts : list tip) (a b : string) : Z :=
  match latest ts a b with Some r => amount r | None => 0 end.

Definition pair_dec (p q : string * string) : {p = q} + {p <> q}.
Proof. decide equality; apply string_dec. Defined.

Definition pair_of (r : tip) : string * string := (tipper r, tippee r).

Definition opt_list {A} (o : option A) : list A :=
  match o with Some a => [a] | None => [] end.

(** [SELECT DISTINCT ON (tipper, tippee) ctime, tipper, tippee, amount
     FROM tips ORDER BY tipper, tippee, mtime DESC]:
    one row for each pair, the one of latest [mtime].  The rows keep
    their [mtime] field here; nothing below reads it. *)
Definition unique_tips (ts : list tip) : list tip :=
  flat_map (fun p => opt_list (latest ts (fst p) (snd p)))
           (nodup pair_dec (map pair_of ts)).

(** [sum(amount)] and [min(ctime)] over a group. *)
Definition sum_amount (g : list tip) : Z :=
  fold_right Z.add 0 (map amount g).

Definition min_ctime (g : list tip) : Z :=
  match g with
  | [] => 0
  | r :: rest => fold_right Z.min (ctime r) (map ctime rest)
  end.

(** [... WHERE w GROUP BY key], one aggregated row per key; [mk] builds
    the row from the key and its group. *)
Definition group_by (key : tip -> string) (mk : string -> list tip -> tip)
           (rows : list tip) : list tip :=
  map (fun k => mk k (filter (fun r => key r == k) rows))
      (nodup string_dec (map key rows)).

(** The rows [CONSOLIDATE_TIPS_RECEIVING] selects, with the six
    parameters in the order the statement takes them; [stamp] is the
    [mtime] the table gives the rows on insertion. *)
Definition select_tips_receiving (p1 p2 p3 p4 p5 p6 : string) (stamp : Z)
           (ts : list tip) : list tip :=
  group_by tipper
    (fun k g => mkTip (min_ctime g) k p1 (sum_amount g) stamp)
    (filter (fun r => ((tippee r == p2) || (tippee r == p3))
                      && negb ((tipper r == p4) && (tippee r == p5))
                      && negb (tipper r == p6))
            (unique_tips ts)).

Definition CONSOLIDATE_TIPS_RECEIVING (p1 p2 p3 p4 p5 p6 : string) (stamp : Z)
           (ts : list tip) : list tip :=
  ts ++ select_tips_receiving p1 p2 p3 p4 p5 p6 stamp ts.

(** The rows [CONSOLIDATE_TIPS_GIVING] selects. *)
Definition select_tips_giving (p1 p2 p3 p4 p5 p6 : string) (stamp : Z)
           (ts : list tip) : list tip :=
  group_by tippee
    (fun k g => mkTip (min_ctime g) p1 k (sum_amount g) stamp)
    (filter (fun r => ((tipper r == p2) || (tipper r == p3))
                      && negb ((tipper r == p4) && (tippee r == p5))
                      && negb (tippee r == p6))
            (unique_tips ts)).

Definition CONSOLIDATE_TIPS_GIVING (p1 p2 p3 p4 p5 p6 : string) (stamp : Z)
           (ts : list tip) : list tip :=
  ts ++ select_tips_giving p1 p2 p3 p4 p5 p6 stamp ts.

(** [SELECT DISTINCT ON (key) ...] without [ORDER BY]: one row for each
    key; the first in table order stands for the one the server keeps. *)
Definition distinct_on (key : tip -> string) (rows : list tip) : list tip :=
  flat_map (fun k => opt_list (find (fun r => key r == k) rows))
           (nodup string_dec (map key rows)).

Definition zeroed (stamp : Z) (r : tip) : tip :=
  mkTip (ctime r) (tipper r) (tippee r) 0 stamp.

Definition select_zero_receiving (p1 : string) (stamp : Z) (ts : list tip)
  : list tip :=
  map (zeroed stamp) (distinct_on tipper (filter (fun r => tippee r == p1) ts)).

Definition ZERO_OUT_OLD_TIPS_RECEIVING (p1 : string) (stamp : Z)
           (ts : list tip) : list tip :=
  ts ++ select_zero_receiving p1 stamp ts.

Definition select_zero_giving (p1 : string) (stamp : Z) (ts : list tip)
  : list tip :=
  map (zeroed stamp) (distinct_on tippee (filter (fun r => tipper r == p1) ts)).

Definition ZERO_OUT_OLD_TIPS_GIVING (p1 : string) (stamp : Z)
           (ts : list tip) : list tip :=
  ts ++ select_zero_giving p1 stamp ts.

(* ================================================================== *)
(** ** What the call takes from outside *)

(** The things [take_over] gets from its surroundings rather than from
    its arguments.

    - [stub_usernames] and [archive_usernames] are the sequences the two
      calls of [gen_random_usernames()] yield, an endless generator.
    - [now] is the value of [now()].
    - [mtime_default i] is the [mtime] the table gives the rows of the
      [i]-th [INSERT INTO tips] of the call (the statements name no
      [mtime]; the column default is part of the schema, which is not
      in this module).
    - [rename_failure] says how the [UPDATE participants] statement
      fails for a candidate for a reason other than the two unique
      handles (the source asks: can the UPDATE fail in other ways?),
      as the class psycopg2 raises. *)
Record env := mkEnv
  { stub_usernames : nat -> string
  ; archive_usernames : nat -> string
  ; now : Z
  ; mtime_default : nat -> Z
  ; rename_failure : string -> option database_error }.

(* ================================================================== *)
(** ** The statements on [participants] and [elsewhere] *)

(** The first query of [take_over] and its [fetchone()]. *)
Definition SELECT_connection (p1 p2 : string) (db : store)
  : option (string * bool) :=
  hd_error
    (flat_map
       (fun e => map (fun p => (participant e, is_None (claimed_time p)))
                     (filter (fun p => participant e == username p)
                             (participants db)))
       (filter (fun e => (platform e == p1) && (user_id e == p2))
               (elsewhere db))).

(** [SELECT count( * ) AS nelsewhere FROM elsewhere WHERE participant=%s]. *)
Definition SELECT_nelsewhere (p1 : string) (db : store) : Z :=
  Z.of_nat (List.length (filter (fun e => participant e == p1) (elsewhere db))).

(** [SELECT count( * ) AS nparticipants FROM elsewhere
     WHERE participant=%s AND platform=%s]. *)
Definition SELECT_nparticipants (p1 p2 : string) (db : store) : Z :=
  Z.of_nat (List.length (filter (fun e => (participant e == p1) && (platform e == p2))
                           (elsewhere db))).

(** [UPDATE elsewhere SET participant=%s WHERE platform=%s AND participant=%s]. *)
Definition UPDATE_elsewhere_by_participant (p1 p2 p3 : string) (db : store)
  : store :=
  set_elsewhere
    (map (fun e => if (platform e == p2) && (participant e == p3)
                   then mkElsewhere (platform e) (user_id e) p1 else e)
         (elsewhere db)) db.

(** [UPDATE elsewhere SET participant=%s WHERE platform=%s AND user_id=%s]. *)
Definition UPDATE_elsewhere_by_user_id (p1 p2 p3 : string) (db : store)
  : store :=
  set_elsewhere
    (map (fun e => if (platform e == p2) && (user_id e == p3)
                   then mkElsewhere (platform e) (user_id e) p1 else e)
         (elsewhere db)) db.

(** A handle is taken when a row bears it as [username] or its lower
    case as [username_lower]: the two unique columns. *)
Definition taken (u : string) (ps : list participant_row) : bool :=
  existsb (fun p => (username p == u) || (username_lower p == lower u)) ps.

(** The row of a stub: never claimed, never signed in. *)
Definition stub_row (u : string) : participant_row :=
  mkParticipant u (lower u) None None None.

(** Modelled from the spec: [reserve_a_random_username] of
    [gittip.models.participant], which is imported and not defined in
    this module.  It creates a brand-new stub identity under a handle
    that no identity holds and returns the handle; candidates that are
    taken are passed over. *)
Fixpoint reserve_a_random_username (gen : nat -> string) (fuel i : nat)
  : M string :=
  match fuel with
  | O => fun db => (Spinning, db)
  | S fuel' =>
      fun db =>
        if taken (gen i) (participants db)
        then reserve_a_random_username gen fuel' (S i) db
        else (Return (gen i),
              set_participants (participants db ++ [stub_row (gen i)]) db)
  end.

(** A row as the rename statement rewrites it: new handle, signed out. *)
Definition renamed (p1 p2 : string) (t : Z) (p : participant_row)
  : participant_row :=
  mkParticipant p1 p2 (claimed_time p) None (Some t).

(** The rename statement of the archive loop,
    [UPDATE participants SET username=%s, username_lower=%s,
       session_token=NULL, session_expires=now()
     WHERE username=%s RETURNING username],
    followed by [fetchone()].  The statement raises [IntegrityError]
    when the new handle collides with another row on one of the two
    unique columns (or when several rows would take it), and whatever
    [rename_failure] says; a statement that fails changes nothing. *)
Definition UPDATE_participants (w : env) (p1 p2 p3 : string)
  : M (option string) :=
  fun db =>
    match rename_failure w p1 with
    | Some e => (Raise (DatabaseError e), db)
    | None =>
        let others := filter (fun p => negb (username p == p3)) (participants db) in
        match filter (fun p => username p == p3) (participants db) with
        | [] => (Return None, db)
        | [_] =>
            if existsb (fun p => (username p == p1) || (username_lower p == p2))
                       others
            then (Raise (DatabaseError (IntegrityError unique_violation)), db)
            else (Return (Some p1),
                  set_participants
                    (map (fun p => if username p == p3
                                   then renamed p1 p2 (now w) p else p)
                         (participants db)) db)
        | _ :: _ :: _ =>
            (Raise (DatabaseError (IntegrityError unique_violation)), db)
        end
    end.

(** [INSERT INTO absorptions (absorbed_was, absorbed_by, archived_as)]. *)
Definition INSERT_absorptions (p1 p2 p3 : string) (db : store) : store :=
  set_absorptions (absorptions db ++ [mkAbsorption p1 p2 p3]) db.

(* ================================================================== *)
(** ** [take_over] *)

(** The archive loop, [for archive_username in gen_random_usernames()],
    from candidate number [i] on.  [except IntegrityError: continue]
    matches on the class alone.

    The loop runs inside the one transaction of the cursor, without a
    savepoint.  Once a statement of a transaction has failed, the
    server refuses every further statement of it, which psycopg2
    raises as [InternalError]; [aborted] says whether a rename has
    failed already. *)
Fixpoint archive_loop_from (w : env) (other_username : string)
         (aborted : bool) (fuel i : nat) : M string :=
  match fuel with
  | O => fun db => (Spinning, db)
  | S fuel' =>
      let archive_username := archive_usernames w i in
      fun db =>
        match (if aborted
               then raise (DatabaseError InternalError)
               else UPDATE_participants w archive_username
                                        (lower archive_username)
                                        other_username) db with
        | (Raise (DatabaseError (IntegrityError _)), db') =>
            archive_loop_from w other_username true fuel' (S i) db'
        | (Raise e, db') => (Raise e, db')
        | (Spinning, db') => (Spinning, db')
        | (Return rec, db') =>
            (assert (negb (is_None rec)) ;;;
             assert (match rec with
                     | Some u => u == archive_username
                     | None => false
                     end) ;;;
             ret archive_username) db'
        end
  end.

(** The loop as [take_over] enters it: no statement has failed yet. *)
Definition archive_loop (w : env) (other_username : string) (fuel i : nat)
  : M string :=
  archive_loop_from w other_username false fuel i.

(** [nparticipants in (0, 1)]. *)
Definition in_0_1 (n : Z) : bool := (n =? 0) || (n =? 1).

(** "Move any old account out of the way." *)
Definition move_old_account (w : env) (fuel : nat)
           (participant_username platform_ : string)
           (we_already_have_that_kind_of_account : bool) : M unit :=
  if we_already_have_that_kind_of_account
  then new_stub_username <- reserve_a_random_username (stub_usernames w) fuel 0 ;;
       execute (UPDATE_elsewhere_by_participant
                  new_stub_username platform_ participant_username)
  else ret tt.

(** "Do the deal." *)
Definition do_the_deal (participant_username platform_ user_id_ : string)
  : M unit :=
  execute (UPDATE_elsewhere_by_user_id participant_username platform_ user_id_).

(** "Fold the old participant into the new as appropriate." *)
Definition fold_old_participant (w : env) (fuel : nat)
           (participant_username other_username : string)
           (this_is_others_last_account_elsewhere : bool) : M unit :=
  if this_is_others_last_account_elsewhere
  then
    let x := participant_username in
    let y := other_username in
    execute (fun db => set_tips
      (CONSOLIDATE_TIPS_RECEIVING x x y x y x (mtime_default w 0) (tips db)) db) ;;;
    execute (fun db => set_tips
      (CONSOLIDATE_TIPS_GIVING x x y x y x (mtime_default w 1) (tips db)) db) ;;;
    execute (fun db => set_tips
      (ZERO_OUT_OLD_TIPS_RECEIVING other_username (mtime_default w 2) (tips db)) db) ;;;
    execute (fun db => set_tips
      (ZERO_OUT_OLD_TIPS_GIVING other_username (mtime_default w 3) (tips db)) db) ;;;
    archive_username <- archive_loop w other_username fuel 0 ;;
    execute (INSERT_absorptions other_username participant_username
                                archive_username)
  else ret tt.

(** The body of the [with gittip.db.get_cursor() as cursor] block.
    [participant_username] is [participant.username]; [platform_] and
    [user_id_] are the two fields of [account_elsewhere]. *)
Definition take_over_body (w : env) (fuel : nat)
           (participant_username platform_ user_id_ : string)
           (have_confirmation : bool) : M unit :=
  rec <- query (SELECT_connection platform_ user_id_) ;;
  match rec with
  | None => raise AssertionError
  | Some (other_username, is_stub) =>
      let A := negb is_stub in
      nelsewhere <- query (SELECT_nelsewhere other_username) ;;
      assert (0 <? nelsewhere) ;;;
      let B := (nelsewhere =? 1) in
      nparticipants <- query (SELECT_nparticipants participant_username platform_) ;;
      assert (in_0_1 nparticipants) ;;;
      let C := (nparticipants =? 1) in
      let need_confirmation := mkNeedConfirmation A B C in
      if nonzero need_confirmation && negb have_confirmation
      then raise (ExnNeedConfirmation need_confirmation)
      else
        move_old_account w fuel participant_username platform_ C ;;;
        do_the_deal participant_username platform_ user_id_ ;;;
        fold_old_participant w fuel participant_username other_username B
  end.

(** [with gittip.db.get_cursor() as cursor]: one transaction.  The
    block's writes are committed when it ends normally and dropped when
    it ends otherwise. *)
Definition take_over (w : env) (fuel : nat)
           (participant_username platform_ user_id_ : string)
           (have_confirmation : bool) (db : store) : result unit * store :=
  match take_over_body w fuel participant_username platform_ user_id_
                       have_confirmation db with
  | (Return tt, db') => (Return tt, db')
  | (r, _) => (r, db)
  end.

(* ================================================================== *)
(** ** Derived notions used in the statements *)

(** The owner of the account elsewhere and the three facts, as the body
    computes them; [None] when a sanity check fails. *)
Definition facts (participant_username platform_ user_id_ : string) (db : store)
  : option (string * NeedConfirmation) :=
  match SELECT_connection platform_ user_id_ db with
  | None => None
  | Some (other_username, is_stub) =>
      let nelsewhere := SELECT_nelsewhere other_username db in
      let nparticipants := SELECT_nparticipants participant_username platform_ db in
      if (0 <? nelsewhere) && in_0_1 nparticipants
      then Some (other_username,
                 mkNeedConfirmation (negb is_stub) (nelsewhere =? 1)
                                    (nparticipants =? 1))
      else None
  end.

(** What the body runs once confirmation is settled. *)
Definition proceed (w : env) (fuel : nat)
           (participant_username platform_ user_id_ other_username : string)
           (n : NeedConfirmation) : M unit :=
  move_old_account w fuel participant_username platform_
                   (we_already_have_that_kind_of_account n) ;;;
  do_the_deal participant_username platform_ user_id_ ;;;
  fold_old_participant w fuel participant_username other_username
                       (this_is_others_last_account_elsewhere n).

(** The table [tips] after the four statements of "Take over tips.",
    with [x, y = participant.username, other_username]. *)
Definition tips_consolidated_to (w : env) (x y : string) (ts : list tip)
  : list tip :=
  CONSOLIDATE_TIPS_RECEIVING x x y x y x (mtime_default w 0) ts.

Definition tips_consolidated (w : env) (x y : string) (ts : list tip)
  : list tip :=
  CONSOLIDATE_TIPS_GIVING x x y x y x (mtime_default w 1)
                          (tips_consolidated_to w x y ts).

Definition tips_zeroed_to (w : env) (x y : string) (ts : list tip)
  : list tip :=
  ZERO_OUT_OLD_TIPS_RECEIVING y (mtime_default w 2) (tips_consolidated w x y ts).

Definition take_over_tips (w : env) (x y : string) (ts : list tip) : list tip :=
  ZERO_OUT_OLD_TIPS_GIVING y (mtime_default w 3) (tips_zeroed_to w x y ts).

(** Every statement stamps its rows later than the rows it finds: the
    rows in the table are older than the first insert, and the four
    inserts follow one another in time. *)
Definition stamps_advance (w : env) (ts : list tip) : Prop :=
  (forall r, In r ts -> mtime r < mtime_default w 0)
  /\ mtime_default w 0 < mtime_default w 1
  /\ mtime_default w 1 < mtime_default w 2
  /\ mtime_default w 2 < mtime_default w 3.

(** What identifies an account elsewhere. *)
Definition elsewhere_key (e : elsewhere_row) : string * string :=
  (platform e, user_id e).

(** The rows of [participants] once [other] is archived as [u]. *)
Definition archived (w : env) (other u : string) (ps : list participant_row)
  : list participant_row :=
  map (fun p => if username p == other
                then renamed u (lower u) (now w) p else p) ps.

(* ================================================================== *)
(** ** Sample data *)

Module Sample.

(** Candidates [stub0], [stub1], ... and [arch0], [arch1], ...; the
    inserts are stamped 100, 101, 102, 103, later than the sample rows;
    the rename fails only on taken handles. *)
Definition numbered (prefix : string) (i : nat) : string :=
  String.append prefix (String (ascii_of_nat (48 + i)) EmptyString).

Definition world : env :=
  mkEnv (numbered "stub") (numbered "arch") 1000
        (fun i => 100 + Z.of_nat i) (fun _ => None).

(** [x] is claimed, [y] is a stub; [a] is a third party. *)
Definition people : list participant_row :=
  [ mkParticipant "x" "x" (Some 10) (Some "token-x") None
  ; mkParticipant "y" "y" None None None
  ; mkParticipant "a" "a" (Some 11) None None ].

Definition pledges : list tip :=
  [ mkTip 1 "x" "y" 100 1
  ; mkTip 2 "y" "a" 100 2
  ; mkTip 3 "a" "x" 50 3
  ; mkTip 4 "a" "y" 25 4
  ; mkTip 5 "y" "x" 30 5
  ; mkTip 4 "a" "y" 20 6 ].

(** The github account is the only account of the stub [y]. *)
Definition last_account : store :=
  mkStore people [mkElsewhere "github" "1" "y"] pledges [].

(** [y] is claimed and has a second account; [x] has a github account
    of its own. *)
Definition two_accounts : store :=
  mkStore
    [ mkParticipant "x" "x" (Some 10) (Some "token-x") None
    ; mkParticipant "y" "y" (Some 12) (Some "token-y") None
    ; mkParticipant "a" "a" (Some 11) None None ]
    [ mkElsewhere "github" "1" "y"
    ; mkElsewhere "twitter" "2" "y"
    ; mkElsewhere "github" "3" "x" ]
    pledges [].

(** The generator comes up with the very handle of [y] first. *)
Definition world_own_handle : env :=
  mkEnv (numbered "stub") (fun i => match i with O => "y" | _ => numbered "arch" i end)
        1000 (fun i => 100 + Z.of_nat i) (fun _ => None).

(** The rename to [arch0] breaks a foreign key. *)
Definition world_foreign_key : env :=
  mkEnv (numbered "stub") (numbered "arch") 1000
        (fun i => 100 + Z.of_nat i)
        (fun u => if u == "arch0"
                  then Some (IntegrityError foreign_key_violation)
                  else None).

(** All four inserts carry one and the same stamp, as when the column
    default is the time the transaction began. *)
Definition world_one_stamp : env :=
  mkEnv (numbered "stub") (numbered "arch") 1000 (fun _ => 100) (fun _ => None).

(** The connection is lost at the rename to the first candidate. *)
Definition world_connection_lost : env :=
  mkEnv (numbered "stub") (numbered "arch") 1000
        (fun i => 100 + Z.of_nat i)
        (fun u => if u == "arch0" then Some OperationalError else None).

(** A later call: the generator comes up with other candidates,
    [arch1], [arch2], ..., and the inserts are stamped from 200 on. *)
Definition world_again : env :=
  mkEnv (numbered "stub") (fun i => numbered "arch" (S i)) 1000
        (fun i => 200 + Z.of_nat i) (fun _ => None).


End Sample.

(** The rows in the table are older than the four inserts of the call,
    whatever the stamps of the inserts among themselves (they may all
    be the same). *)
Definition inserts_later (w : env) (ts : list tip) : Prop :=
  forall r i, In r ts -> (i < 4)%nat -> mtime r < mtime_default w i.

(* ================================================================== *)
(** ** The shape of a run *)

(** The body is the sanity checks, the confirmation test and the rest. *)
Lemma take_over_body_eq w fuel x pf uid hc db :
  take_over_body w fuel x pf uid hc db =
  match facts x pf uid db with
  | None => (Raise AssertionError, db)
  | Some (other, n) =>
      if nonzero n && negb hc
      then (Raise (ExnNeedConfirmation n), db)
      else proceed w fuel x pf uid other n db
  end.
Proof.
  unfold take_over_body, facts, bind, query.
  destruct (SELECT_connection pf uid db) as [[other is_stub]|]; [|reflexivity].
  destruct (0 <? SELECT_nelsewhere other db); simpl; [|reflexivity].
  destruct (in_0_1 (SELECT_nparticipants x pf db)); simpl; [|reflexivity].
  destruct (nonzero _ && negb hc); reflexivity.
Qed.

(** *** The two loops *)

(** [reserve_a_random_username] raises nothing; when it returns, it has
    added one stub row under a handle that was free. *)
Lemma reserve_a_random_username_spec gen fuel : forall i db,
  match reserve_a_random_username gen fuel i db with
  | (Return u, db') =>
      taken u (participants db) = false
      /\ db' = set_participants (participants db ++ [stub_row u]) db
  | (Raise _, _) => False
  | (Spinning, db') => db' = db
  end.
Proof.
  induction fuel as [|fuel IH]; intros i db; simpl.
  - reflexivity.
  - destruct (taken (gen i) (participants db)) eqn:E.
    + apply IH.
    + split; [exact E | reflexivity].
Qed.

(** One run of the rename statement. *)
Lemma UPDATE_participants_spec w p1 p2 p3 db :
  match UPDATE_participants w p1 p2 p3 db with
  | (Return rec, db') =>
      rename_failure w p1 = None
      /\ tips db' = tips db /\ elsewhere db' = elsewhere db
      /\ absorptions db' = absorptions db
      /\ (rec = None -> db' = db)
      /\ (forall u, rec = Some u -> u = p1)
  | (Raise e, db') => db' = db /\ exists d, e = DatabaseError d
  | (Spinning, _) => False
  end.
Proof.
  unfold UPDATE_participants.
  destruct (rename_failure w p1) as [d|]; [split; eauto|].
  destruct (filter (fun p => username p == p3) (participants db)) as [|q [|q' l]].
  - repeat split; try reflexivity; congruence.
  - destruct (existsb _ _).
    + split; eauto.
    + repeat split; try reflexivity; congruence.
  - split; eauto.
Qed.

(** The archive loop leaves the three other tables alone, changes
    nothing when it does not return, and raises nothing but what the
    rename statement raised or a failed sanity check. *)
Lemma archive_loop_from_frame w other fuel : forall aborted i db,
  match archive_loop_from w other aborted fuel i db with
  | (Return u, db') =>
      tips db' = tips db /\ elsewhere db' = elsewhere db
      /\ absorptions db' = absorptions db
  | (Raise e, db') => db' = db /\ forall n, e <> ExnNeedConfirmation n
  | (Spinning, db') => db' = db
  end.
Proof.
  induction fuel as [|fuel IH]; intros aborted i db; [reflexivity|].
  destruct aborted; simpl; [split; [reflexivity|congruence]|].
  pose proof (UPDATE_participants_spec w (archive_usernames w i)
                (lower (archive_usernames w i)) other db) as H.
  destruct (UPDATE_participants w (archive_usernames w i)
              (lower (archive_usernames w i)) other db) as [[rec|e|] db'].
  - destruct H as (_ & Ht & He & Ha & Hn & Hu).
    destruct rec as [u|]; cbn.
    + rewrite (Hu u eq_refl), String.eqb_refl; cbn. auto.
    + split; [auto|congruence].
  - destruct H as [-> [d ->]].
    destruct d; try (split; [reflexivity|congruence]).
    apply IH.
  - destruct H.
Qed.

Lemma archive_loop_frame w other fuel : forall i db,
  match archive_loop w other fuel i db with
  | (Return u, db') =>
      tips db' = tips db /\ elsewhere db' = elsewhere db
      /\ absorptions db' = absorptions db
  | (Raise e, db') => db' = db /\ forall n, e <> ExnNeedConfirmation n
  | (Spinning, db') => db' = db
  end.
Proof. intros i db. apply archive_loop_from_frame. Qed.

(** *** The steps after the confirmation test *)

Lemma move_old_account_spec w fuel x pf (C : bool) db :
  match move_old_account w fuel x pf C db with
  | (Return _, db1) =>
      tips db1 = tips db /\ absorptions db1 = absorptions db
      /\ if C
         then exists u,
             taken u (participants db) = false
             /\ participants db1 = participants db ++ [stub_row u]
             /\ elsewhere db1
                = elsewhere (UPDATE_elsewhere_by_participant u pf x db)
         else db1 = db
  | (Raise _, _) => False
  | (Spinning, db1) => db1 = db
  end.
Proof.
  unfold move_old_account. destruct C; [|cbn; auto].
  unfold bind.
  pose proof (reserve_a_random_username_spec (stub_usernames w) fuel 0 db) as H.
  destruct (reserve_a_random_username (stub_usernames w) fuel 0 db)
    as [[u|e|] db1]; [|exact H|exact H].
  destruct H as [Hfree ->]. cbn. repeat split. exists u. auto.
Qed.

Lemma fold_old_participant_spec w fuel x other (B : bool) db :
  match fold_old_participant w fuel x other B db with
  | (Return _, db') =>
      elsewhere db' = elsewhere db
      /\ if B
         then tips db' = take_over_tips w x other (tips db)
         else db' = db
  | (Raise e, _) => forall n, e <> ExnNeedConfirmation n
  | (Spinning, _) => True
  end.
Proof.
  unfold fold_old_participant. destruct B; [|cbn; auto].
  unfold bind, execute. cbv zeta.
  match goal with
  | |- context [archive_loop w other fuel 0 ?d] =>
      pose proof (archive_loop_frame w other fuel 0 d) as H;
      destruct (archive_loop w other fuel 0 d) as [[u|e|] db1]
  end.
  - destruct H as (Ht & He & Ha). cbn. split; [exact He | exact Ht].
  - apply H.
  - exact I.
Qed.

(** Whatever is raised once confirmation is settled, it is not
    [NeedConfirmation]. *)
Lemma proceed_never_asks w fuel x pf uid other n db m :
  fst (proceed w fuel x pf uid other n db) <> Raise (ExnNeedConfirmation m).
Proof.
  unfold proceed, bind.
  pose proof (move_old_account_spec w fuel x pf
                (we_already_have_that_kind_of_account n) db) as H1.
  destruct (move_old_account w fuel x pf _ db) as [[[]|e|] db1];
    [|destruct H1|cbn; discriminate].
  unfold do_the_deal at 1, execute at 1.
  match goal with
  | |- context [fold_old_participant w fuel x other ?b ?d] =>
      pose proof (fold_old_participant_spec w fuel x other b d) as H2;
      destruct (fold_old_participant w fuel x other b d) as [[[]|e|] db2]
  end; cbn; try discriminate.
  intros E. injection E as E. exact (H2 _ E).
Qed.

(** The table [tips] at the end of a run that returns. *)
Lemma proceed_tips w fuel x pf uid other n db db' :
  proceed w fuel x pf uid other n db = (Return tt, db') ->
  tips db' = if this_is_others_last_account_elsewhere n
             then take_over_tips w x other (tips db)
             else tips db.
Proof.
  unfold proceed, bind.
  pose proof (move_old_account_spec w fuel x pf
                (we_already_have_that_kind_of_account n) db) as H1.
  destruct (move_old_account w fuel x pf _ db) as [[[]|e|] db1];
    [|destruct H1|discriminate].
  destruct H1 as (Ht & _).
  unfold do_the_deal at 1, execute at 1.
  match goal with
  | |- context [fold_old_participant w fuel x other ?b ?d] =>
      pose proof (fold_old_participant_spec w fuel x other b d) as H2;
      destruct (fold_old_participant w fuel x other b d) as [[[]|e|] db2]
  end; try discriminate.
  intros E. injection E as <-. destruct H2 as [_ H2].
  destruct (this_is_others_last_account_elsewhere n).
  - rewrite H2. cbn. rewrite Ht. reflexivity.
  - rewrite H2. cbn. exact Ht.
Qed.

(** A run of [take_over] that returns, taken apart. *)
Lemma take_over_returns w fuel x pf uid hc db db' :
  take_over w fuel x pf uid hc db = (Return tt, db') ->
  exists other n,
    facts x pf uid db = Some (other, n)
    /\ nonzero n && negb hc = false
    /\ proceed w fuel x pf uid other n db = (Return tt, db').
Proof.
  unfold take_over. rewrite take_over_body_eq.
  destruct (facts x pf uid db) as [[other n]|]; [|discriminate].
  destruct (nonzero n && negb hc) eqn:E; [discriminate|].
  destruct (proceed w fuel x pf uid other n db) as [[[]|e|] d] eqn:P;
    try discriminate.
  intros H; injection H as <-. exists other, n. auto.
Qed.

(* ================================================================== *)
(** ** Confirmation *)

(** C1. [take_over] raises [NeedConfirmation(A, B, C)] exactly when the
    three facts are [A], [B], [C], [A or C] holds and no confirmation
    was given; with [A] and [C] both false it is never raised, whatever
    [B] is. *)
Theorem C1_need_confirmation_iff w fuel x pf uid hc db n :
  (fst (take_over w fuel x pf uid hc db) = Raise (ExnNeedConfirmation n)
   <-> ((exists other, facts x pf uid db = Some (other, n))
        /\ other_is_a_real_participant n
           || we_already_have_that_kind_of_account n = true
        /\ hc = false))
  /\ (other_is_a_real_participant n = false ->
      we_already_have_that_kind_of_account n = false ->
      fst (take_over w fuel x pf uid hc db) <> Raise (ExnNeedConfirmation n)).
Proof.
  assert (Hiff :
    fst (take_over w fuel x pf uid hc db) = Raise (ExnNeedConfirmation n)
    <-> ((exists other, facts x pf uid db = Some (other, n))
         /\ nonzero n = true /\ hc = false)).
  { unfold take_over. rewrite take_over_body_eq.
    destruct (facts x pf uid db) as [[other m]|].
    - destruct (nonzero m && negb hc) eqn:E.
      + cbn. apply andb_true_iff in E. destruct E as [Em Eh].
        apply negb_true_iff in Eh. split.
        * intros H. injection H as <-. eauto.
        * intros [[o Ho] _]. injection Ho as _ <-. reflexivity.
      + pose proof (proceed_never_asks w fuel x pf uid other m db n) as Hn.
        destruct (proceed w fuel x pf uid other m db) as [[[]|e|] d];
          cbn in *; split; try discriminate; try contradiction.
        all: intros [[o Ho] [Hz Hh]]; injection Ho as _ <-;
          rewrite Hz, Hh in E; discriminate.
    - cbn. split; [discriminate|]. intros [[o Ho] _]. discriminate. }
  split; [exact Hiff|].
  intros HA HC H. apply Hiff in H. destruct H as (_ & Hz & _).
  unfold nonzero in Hz. rewrite HA, HC in Hz. discriminate.
Qed.

(** C7. When the body stops with [NeedConfirmation], the store it
    leaves is the store it found: nothing was written before the raise,
    and the transaction leaves the database as it was. *)
Theorem C7_abort_writes_nothing w fuel x pf uid hc db n db' :
  take_over_body w fuel x pf uid hc db = (Raise (ExnNeedConfirmation n), db') ->
  db' = db /\ snd (take_over w fuel x pf uid hc db) = db.
Proof.
  intros H. unfold take_over. rewrite H. split; [|reflexivity].
  rewrite take_over_body_eq in H.
  destruct (facts x pf uid db) as [[other m]|].
  - destruct (nonzero m && negb hc).
    + injection H as _ <-. reflexivity.
    + exfalso. apply (proceed_never_asks w fuel x pf uid other m db n).
      rewrite H. reflexivity.
  - injection H as _ <-. reflexivity.
Qed.

(* ================================================================== *)
(** ** The current tip of a pair *)

Lemma eqb_sym (a b : string) : (a == b) = (b == a).
Proof.
  destruct (String.eqb_spec a b) as [->|N].
  - symmetry; apply String.eqb_refl.
  - symmetry; apply String.eqb_neq; congruence.
Qed.

Lemma same_pair_true a b r :
  same_pair a b r = true <-> tipper r = a /\ tippee r = b.
Proof.
  unfold same_pair. rewrite andb_true_iff, !String.eqb_eq. tauto.
Qed.

Lemma newest_in l r : newest l = Some r -> In r l.
Proof.
  revert r. induction l as [|a l IH]; simpl; intros r H; [discriminate|].
  destruct (newest l) as [r'|].
  - destruct (mtime a <? mtime r'); injection H as <-; auto.
  - injection H as <-; auto.
Qed.

Lemma newest_max l r :
  newest l = Some r -> forall r', In r' l -> mtime r' <= mtime r.
Proof.
  revert r. induction l as [|a l IH]; simpl; intros r H r' Hin; [tauto|].
  destruct (newest l) as [m|] eqn:E.
  - specialize (IH m eq_refl).
    destruct (Z.ltb_spec (mtime a) (mtime m)); injection H as <-;
      destruct Hin as [<-|Hin]; try lia; try (apply IH; assumption).
    specialize (IH r' Hin). lia.
  - injection H as <-. destruct Hin as [<-|Hin]; [lia|].
    destruct l; [destruct Hin|]. simpl in E.
    destruct (newest l); [destruct (_ <? _)|]; discriminate.
Qed.

Lemma newest_nil l : newest l = None <-> l = [].
Proof.
  split; [|intros ->; reflexivity].
  destruct l as [|a l]; [reflexivity|]. simpl.
  destruct (newest l); [destruct (_ <? _)|]; discriminate.
Qed.

(** Rows appended with a later [mtime] take over. *)
Lemma newest_app_later l l' r' :
  newest l' = Some r' ->
  (forall r, In r l -> mtime r < mtime r') ->
  newest (l ++ l') = Some r'.
Proof.
  intros H'. induction l as [|a l IH]; simpl; intros Hl; [exact H'|].
  rewrite IH by auto.
  destruct (Z.ltb_spec (mtime a) (mtime r')); [reflexivity|].
  specialize (Hl a (or_introl eq_refl)). lia.
Qed.

(** "Current" is: a row of the pair, and none of the pair is later. *)
Lemma latest_spec ts a b r :
  latest ts a b = Some r ->
  In r ts /\ tipper r = a /\ tippee r = b
  /\ forall r', In r' ts -> tipper r' = a -> tippee r' = b ->
                mtime r' <= mtime r.
Proof.
  unfold latest. intros H.
  pose proof (newest_in _ _ H) as Hin. apply filter_In in Hin.
  destruct Hin as [Hin Hp]. apply same_pair_true in Hp.
  repeat split; try tauto.
  intros r' Hr' Ha Hb. apply (newest_max _ _ H).
  apply filter_In. split; [assumption|]. apply same_pair_true. auto.
Qed.

Lemma latest_none ts a b :
  latest ts a b = None <->
  forall r, In r ts -> ~ (tipper r = a /\ tippee r = b).
Proof.
  unfold latest. rewrite newest_nil. split.
  - intros H r Hin Hp.
    assert (In r (filter (same_pair a b) ts)) as X
      by (apply filter_In; split; [assumption|apply same_pair_true; assumption]).
    rewrite H in X. destruct X.
  - intros H. destruct (filter (same_pair a b) ts) as [|r l] eqn:E; [reflexivity|].
    assert (In r (filter (same_pair a b) ts)) as X by (rewrite E; left; reflexivity).
    apply filter_In in X. destruct X as [Hin Hp]. apply same_pair_true in Hp.
    destruct (H r Hin Hp).
Qed.

(** What an [INSERT] whose rows all carry the stamp [t], later than the
    table, does to the current tip of a pair. *)
Lemma latest_insert ts ins a b t :
  (forall r, In r ts -> mtime r < t) ->
  (forall r, In r ins -> mtime r = t) ->
  match filter (same_pair a b) ins with
  | [] => latest (ts ++ ins) a b = latest ts a b
  | _ :: _ => exists r, latest (ts ++ ins) a b = Some r
                        /\ In r ins /\ tipper r = a /\ tippee r = b
  end.
Proof.
  intros Hts Hins. unfold latest. rewrite filter_app.
  destruct (filter (same_pair a b) ins) as [|i l] eqn:E.
  - rewrite app_nil_r. reflexivity.
  - destruct (newest (i :: l)) as [r|] eqn:N;
      [|apply newest_nil in N; discriminate].
    pose proof (newest_in _ _ N) as Hr. rewrite <- E in Hr.
    apply filter_In in Hr. destruct Hr as [Hr Hp].
    apply same_pair_true in Hp. exists r. repeat split; try tauto.
    apply newest_app_later; [exact N|].
    intros r0 H0. apply filter_In in H0. rewrite (Hins r Hr).
    apply Hts. tauto.
Qed.

Lemma stamped_app ts ins t t' :
  (forall r, In r ts -> mtime r < t) ->
  (forall r, In r ins -> mtime r = t) ->
  t < t' ->
  forall r, In r (ts ++ ins) -> mtime r < t'.
Proof.
  intros Hts Hins Hlt r Hr. apply in_app_or in Hr. destruct Hr as [Hr|Hr].
  - specialize (Hts r Hr). lia.
  - rewrite (Hins r Hr). exact Hlt.
Qed.

(* ================================================================== *)
(** ** Filters, keys and groups *)

Lemma filter_nil_iff {A} (f : A -> bool) l :
  filter f l = [] <-> forall a, In a l -> f a = false.
Proof.
  induction l as [|a l IH]; simpl.
  - tauto.
  - destruct (f a) eqn:E; split.
    + discriminate.
    + intros H. specialize (H a (or_introl eq_refl)). congruence.
    + intros H b [<-|Hb]; [assumption|]. apply IH; assumption.
    + intros H. apply IH. auto.
Qed.

Lemma filter_filter {A} (f g : A -> bool) l :
  filter f (filter g l) = filter (fun a => g a && f a) l.
Proof.
  induction l as [|a l IH]; simpl; [reflexivity|].
  destruct (g a); simpl; [destruct (f a)|]; rewrite IH; reflexivity.
Qed.

(** Among keys without repetition, the key [k] is there once or not at
    all. *)
Lemma filter_key_NoDup (l : list string) k :
  NoDup l ->
  filter (fun k' => k' == k) l = if existsb (fun k' => k' == k) l then [k] else [].
Proof.
  induction 1 as [|a l Hn Hd IH]; simpl; [reflexivity|].
  destruct (String.eqb_spec a k) as [->|N]; simpl.
  - replace (filter (fun k' => k' == k) l) with (@nil string); [reflexivity|].
    symmetry. apply filter_nil_iff. intros b Hb.
    apply String.eqb_neq. intros ->. contradiction.
  - exact IH.
Qed.

Lemma existsb_key_map {A} (key : A -> string) l k :
  existsb (fun k' => k' == k) (nodup string_dec (map key l))
  = existsb (fun r => key r == k) l.
Proof.
  apply eq_true_iff_eq. rewrite !existsb_exists. split.
  - intros (k' & Hin & E). apply nodup_In, in_map_iff in Hin.
    destruct Hin as (r & <- & Hr). eauto.
  - intros (r & Hr & E). exists (key r). split; [|assumption].
    apply nodup_In, in_map. assumption.
Qed.

(** [GROUP BY key]: the rows of the result whose key is [k], when the
    row built for a key bears it. *)
Lemma group_by_key key key' mk rows k :
  (forall k0 g, key' (mk k0 g) = k0) ->
  filter (fun r => key' r == k) (group_by key mk rows)
  = if existsb (fun r => key r == k) rows
    then [mk k (filter (fun r => key r == k) rows)]
    else [].
Proof.
  intros Hmk. unfold group_by.
  assert (forall l,
    filter (fun r => key' r == k)
           (map (fun k0 => mk k0 (filter (fun r => key r == k0) rows)) l)
    = map (fun k0 => mk k0 (filter (fun r => key r == k0) rows))
          (filter (fun k' => k' == k) l)) as Hmap.
  { induction l as [|a l IH]; simpl; [reflexivity|].
    rewrite Hmk. destruct (a == k); simpl; rewrite IH; reflexivity. }
  rewrite Hmap, filter_key_NoDup by apply NoDup_nodup.
  rewrite existsb_key_map. destruct (existsb _ rows); reflexivity.
Qed.

Lemma group_by_In key mk rows r :
  In r (group_by key mk rows) ->
  exists k, r = mk k (filter (fun r0 => key r0 == k) rows)
            /\ existsb (fun r0 => key r0 == k) rows = true.
Proof.
  unfold group_by. intros H. apply in_map_iff in H.
  destruct H as (k & <- & Hk). exists k. split; [reflexivity|].
  apply nodup_In, in_map_iff in Hk. destruct Hk as (r0 & <- & Hr0).
  apply existsb_exists. exists r0. split; [assumption|apply String.eqb_refl].
Qed.

(* ================================================================== *)
(** ** The current tips, one per pair *)

Lemma latest_pair ts a b r :
  latest ts a b = Some r -> same_pair a b r = true.
Proof.
  intros H. apply latest_spec in H. apply same_pair_true. tauto.
Qed.

Lemma same_pair_other a b c d r :
  same_pair a b r = true -> (a, b) <> (c, d) -> same_pair c d r = false.
Proof.
  intros H N. apply same_pair_true in H. destruct H as [<- <-].
  destruct (same_pair c d r) eqn:E; [|reflexivity].
  apply same_pair_true in E. destruct E as [<- <-]. congruence.
Qed.

Lemma unique_tips_pair ts a b :
  filter (same_pair a b) (unique_tips ts) = opt_list (latest ts a b).
Proof.
  unfold unique_tips.
  set (f := fun p : string * string => opt_list (latest ts (fst p) (snd p))).
  assert (Hf : forall p r, In r (f p) -> same_pair (fst p) (snd p) r = true).
  { intros p r. unfold f. destruct (latest ts (fst p) (snd p)) eqn:E;
      simpl; [|tauto].
    intros [<-|[]]. eapply latest_pair; eassumption. }
  assert (Hout : forall l, ~ In (a, b) l ->
    filter (same_pair a b) (flat_map f l) = []).
  { intros l Hl. apply filter_nil_iff. intros r Hr.
    apply in_flat_map in Hr. destruct Hr as (p & Hp & Hr).
    apply (same_pair_other (fst p) (snd p)); [auto|].
    destruct p; simpl; congruence. }
  assert (Hin : forall l, NoDup l -> In (a, b) l ->
    filter (same_pair a b) (flat_map f l) = f (a, b)).
  { induction 1 as [|p l Hn Hd IH]; intros Hab; [destruct Hab|].
    cbn [flat_map]. rewrite filter_app.
    destruct (pair_dec p (a, b)) as [->|N].
    - rewrite (Hout l Hn), app_nil_r. apply forallb_filter_id.
      apply forallb_forall. intros r Hr. apply (Hf (a, b) r Hr).
    - destruct Hab as [E|Hab]; [contradiction|]. rewrite (IH Hab).
      replace (filter (same_pair a b) (f p)) with (@nil tip); [reflexivity|].
      symmetry. apply filter_nil_iff. intros r Hr.
      apply (same_pair_other (fst p) (snd p)); [auto|].
      destruct p; simpl; assumption. }
  destruct (in_dec pair_dec (a, b) (nodup pair_dec (map pair_of ts))) as [i|n].
  - apply Hin; [apply NoDup_nodup|assumption].
  - rewrite (Hout _ n).
    replace (latest ts a b) with (@None tip); [reflexivity|].
    symmetry. apply latest_none. intros r Hr [Ha Hb]. apply n.
    apply nodup_In, in_map_iff. exists r. unfold pair_of. split; congruence.
Qed.

Lemma unique_tips_In ts r :
  In r (unique_tips ts) <-> latest ts (tipper r) (tippee r) = Some r.
Proof.
  split; intros H.
  - assert (In r (filter (same_pair (tipper r) (tippee r)) (unique_tips ts))) as X.
    { apply filter_In. split; [assumption|]. apply same_pair_true. tauto. }
    rewrite unique_tips_pair in X.
    destruct (latest ts (tipper r) (tippee r)); simpl in X; [|tauto].
    destruct X as [->|[]]. reflexivity.
  - assert (In r (opt_list (latest ts (tipper r) (tippee r)))) as X
      by (rewrite H; left; reflexivity).
    rewrite <- unique_tips_pair in X. apply filter_In in X. tauto.
Qed.

(** *** Sums and minima over the rows of two pairs *)

Lemma sum_amount_app g g' : sum_amount (g ++ g') = sum_amount g + sum_amount g'.
Proof.
  unfold sum_amount. induction g as [|r g IH]; simpl; [reflexivity|].
  rewrite IH. lia.
Qed.

Lemma sum_amount_current ts a b :
  sum_amount (opt_list (latest ts a b)) = current_amount ts a b.
Proof.
  unfold current_amount, sum_amount.
  destruct (latest ts a b); simpl; lia.
Qed.

Lemma sum_amount_either (p q : tip -> bool) l :
  (forall r, In r l -> p r = true -> q r = false) ->
  sum_amount (filter (fun r => p r || q r) l)
  = sum_amount (filter p l) + sum_amount (filter q l).
Proof.
  unfold sum_amount. induction l as [|r l IH]; intros H; simpl; [reflexivity|].
  rewrite <- (Z.add_0_l (fold_right Z.add 0 (map amount (filter p l)))) in IH.
  specialize (IH (fun r0 H0 => H r0 (or_intror H0))).
  pose proof (H r (or_introl eq_refl)) as Hr.
  destruct (p r); simpl.
  - rewrite (Hr eq_refl). simpl. lia.
  - destruct (q r); simpl; lia.
Qed.

Lemma two_pairs_sum ts a b c d :
  (a, b) <> (c, d) ->
  sum_amount (filter (fun r => same_pair a b r || same_pair c d r)
                     (unique_tips ts))
  = current_amount ts a b + current_amount ts c d.
Proof.
  intros N. rewrite sum_amount_either.
  - rewrite !unique_tips_pair, !sum_amount_current. reflexivity.
  - intros r _ H. apply (same_pair_other a b); assumption.
Qed.

Lemma two_pairs_In ts a b c d r :
  In r (filter (fun r => same_pair a b r || same_pair c d r) (unique_tips ts))
  <-> latest ts a b = Some r \/ latest ts c d = Some r.
Proof.
  rewrite filter_In, orb_true_iff, unique_tips_In, !same_pair_true. split.
  - intros [H [[<- <-]|[<- <-]]]; auto.
  - intros [H|H]; pose proof (latest_spec _ _ _ _ H) as (_ & <- & <- & _); auto.
Qed.

Lemma min_ctime_spec g :
  g <> [] ->
  (forall r, In r g -> min_ctime g <= ctime r)
  /\ exists r, In r g /\ min_ctime g = ctime r.
Proof.
  destruct g as [|r0 g]; [congruence|]. intros _. unfold min_ctime.
  induction g as [|r g IH]; simpl.
  - split; [intros r [<-|[]]; lia|]. exists r0. auto.
  - destruct IH as [IHle (m & Hm & Em)]. split.
    + intros r' [<-|[<-|H]].
      * specialize (IHle r0 (or_introl eq_refl)). lia.
      * lia.
      * specialize (IHle r' (or_intror H)). lia.
    + destruct (Z.min_spec (ctime r) (fold_right Z.min (ctime r0) (map ctime g)))
        as [[_ ->]|[_ ->]].
      * exists r. auto.
      * exists m. split; [|assumption]. destruct Hm as [<-|Hm]; auto.
Qed.

(* ================================================================== *)
(** ** The two consolidating statements *)

Lemma existsb_filter {A} (f : A -> bool) l :
  existsb f l = match filter f l with [] => false | _ :: _ => true end.
Proof.
  induction l as [|a l IH]; simpl; [reflexivity|].
  destruct (f a); simpl; [reflexivity|exact IH].
Qed.

(** The group of a tipper [T] other than [x] in the receiving
    statement: the current tips from [T] to [x] and to [y]. *)
Lemma receiving_group ts x y T :
  T <> x ->
  filter (fun r => tipper r == T)
    (filter (fun r => ((tippee r == x) || (tippee r == y))
                      && negb ((tipper r == x) && (tippee r == y))
                      && negb (tipper r == x))
            (unique_tips ts))
  = filter (fun r => same_pair T x r || same_pair T y r) (unique_tips ts).
Proof.
  intros N. rewrite filter_filter. apply filter_ext. intros r.
  unfold same_pair. destruct (String.eqb_spec (tipper r) T) as [->|_].
  - apply String.eqb_neq in N. rewrite N. simpl.
    rewrite !andb_true_r. reflexivity.
  - rewrite andb_false_r. reflexivity.
Qed.

(** The group of a tippee [T] other than [x] in the giving statement:
    the current tips from [x] and from [y] to [T], the tip from [x] to
    [y] left out. *)
Lemma giving_group ts x y T :
  T <> x ->
  filter (fun r => tippee r == T)
    (filter (fun r => ((tipper r == x) || (tipper r == y))
                      && negb ((tipper r == x) && (tippee r == y))
                      && negb (tippee r == x))
            (unique_tips ts))
  = filter (fun r => (negb (T == y) && same_pair x T r) || same_pair y T r)
           (unique_tips ts).
Proof.
  intros N. rewrite filter_filter. apply filter_ext. intros r.
  unfold same_pair. destruct (String.eqb_spec (tippee r) T) as [->|_].
  - rewrite (proj2 (String.eqb_neq T x) N). simpl.
    rewrite !andb_true_r.
    destruct (String.eqb_spec (tipper r) x) as [Ex|_],
             (String.eqb_spec (tipper r) y) as [Ey|_],
             (String.eqb_spec T y) as [Ty|_]; try reflexivity.
    congruence.
  - rewrite !andb_false_r. reflexivity.
Qed.

(** Every row the receiving statement inserts goes to [x], comes from
    someone else and carries the stamp. *)
Lemma receiving_rows ts x y stamp r :
  In r (select_tips_receiving x x y x y x stamp ts) ->
  tippee r = x /\ tipper r <> x /\ mtime r = stamp.
Proof.
  unfold select_tips_receiving. intros H. apply group_by_In in H.
  destruct H as (k & -> & Hk). simpl. repeat split.
  apply existsb_exists in Hk. destruct Hk as (r0 & Hr0 & E).
  apply String.eqb_eq in E. subst k. apply filter_In in Hr0.
  destruct Hr0 as [_ W]. apply andb_true_iff in W. destruct W as [_ W].
  apply negb_true_iff, String.eqb_neq in W. exact W.
Qed.

(** Every row the giving statement inserts comes from [x], goes to
    someone else and carries the stamp. *)
Lemma giving_rows ts x y stamp r :
  In r (select_tips_giving x x y x y x stamp ts) ->
  tipper r = x /\ tippee r <> x /\ mtime r = stamp.
Proof.
  unfold select_tips_giving. intros H. apply group_by_In in H.
  destruct H as (k & -> & Hk). simpl. repeat split.
  apply existsb_exists in Hk. destruct Hk as (r0 & Hr0 & E).
  apply String.eqb_eq in E. subst k. apply filter_In in Hr0.
  destruct Hr0 as [_ W]. apply andb_true_iff in W. destruct W as [_ W].
  apply negb_true_iff, String.eqb_neq in W. exact W.
Qed.

(** The rows the receiving statement inserts for the pair [(T, x)]. *)
Lemma receiving_pair ts x y stamp T :
  T <> x ->
  filter (same_pair T x) (select_tips_receiving x x y x y x stamp ts)
  = match filter (fun r => same_pair T x r || same_pair T y r)
                 (unique_tips ts) with
    | [] => []
    | g => [mkTip (min_ctime g) T x (sum_amount g) stamp]
    end.
Proof.
  intros N.
  rewrite (filter_ext_in (same_pair T x) (fun r => tipper r == T)).
  - unfold select_tips_receiving.
    rewrite (group_by_key tipper tipper) by reflexivity.
    rewrite existsb_filter, receiving_group by assumption.
    destruct (filter _ (unique_tips ts)); reflexivity.
  - intros r Hr. apply receiving_rows in Hr. destruct Hr as (E & _).
    unfold same_pair. rewrite E, String.eqb_refl, andb_true_r. reflexivity.
Qed.

(** The rows the giving statement inserts for the pair [(x, T)]. *)
Lemma giving_pair ts x y stamp T :
  T <> x ->
  filter (same_pair x T) (select_tips_giving x x y x y x stamp ts)
  = match filter (fun r => (negb (T == y) && same_pair x T r) || same_pair y T r)
                 (unique_tips ts) with
    | [] => []
    | g => [mkTip (min_ctime g) x T (sum_amount g) stamp]
    end.
Proof.
  intros N.
  rewrite (filter_ext_in (same_pair x T) (fun r => tippee r == T)).
  - unfold select_tips_giving.
    rewrite (group_by_key tippee tippee) by reflexivity.
    rewrite existsb_filter, giving_group by assumption.
    destruct (filter _ (unique_tips ts)); reflexivity.
  - intros r Hr. apply giving_rows in Hr. destruct Hr as (E & _).
    unfold same_pair. rewrite E, String.eqb_refl. reflexivity.
Qed.

(** A pair the receiving statement does not insert for. *)
Lemma receiving_pair_none ts x y stamp a b :
  a = x \/ b <> x ->
  filter (same_pair a b) (select_tips_receiving x x y x y x stamp ts) = [].
Proof.
  intros H. apply filter_nil_iff. intros r Hr.
  apply receiving_rows in Hr. destruct Hr as (Hb & Ha & _).
  destruct (same_pair a b r) eqn:E; [|reflexivity].
  apply same_pair_true in E. destruct E as [<- <-]. tauto.
Qed.

(** A pair the giving statement does not insert for. *)
Lemma giving_pair_none ts x y stamp a b :
  a <> x \/ b = x ->
  filter (same_pair a b) (select_tips_giving x x y x y x stamp ts) = [].
Proof.
  intros H. apply filter_nil_iff. intros r Hr.
  apply giving_rows in Hr. destruct Hr as (Ha & Hb & _).
  destruct (same_pair a b r) eqn:E; [|reflexivity].
  apply same_pair_true in E. destruct E as [<- <-]. tauto.
Qed.

(** The rows the receiving statement inserts for the tipper [T]. *)
Lemma receiving_of ts x y stamp T :
  T <> x ->
  filter (fun r => tipper r == T) (select_tips_receiving x x y x y x stamp ts)
  = match filter (fun r => same_pair T x r || same_pair T y r)
                 (unique_tips ts) with
    | [] => []
    | g => [mkTip (min_ctime g) T x (sum_amount g) stamp]
    end.
Proof.
  intros N. rewrite <- receiving_pair by assumption.
  apply filter_ext_in. intros r Hr. apply receiving_rows in Hr.
  destruct Hr as (E & _). unfold same_pair.
  rewrite E, String.eqb_refl, andb_true_r. reflexivity.
Qed.

(** The rows the giving statement inserts for the tippee [T]. *)
Lemma giving_of ts x y stamp T :
  T <> x ->
  filter (fun r => tippee r == T) (select_tips_giving x x y x y x stamp ts)
  = match filter (fun r => (negb (T == y) && same_pair x T r) || same_pair y T r)
                 (unique_tips ts) with
    | [] => []
    | g => [mkTip (min_ctime g) x T (sum_amount g) stamp]
    end.
Proof.
  intros N. rewrite <- giving_pair by assumption.
  apply filter_ext_in. intros r Hr. apply giving_rows in Hr.
  destruct Hr as (E & _). unfold same_pair.
  rewrite E, String.eqb_refl. reflexivity.
Qed.

(** A group made of the current tips of two pairs, the first of them
    counted only when [c] holds: its sum and its members. *)
Lemma group_facts ts (c : bool) a b a' b' :
  (a, b) <> (a', b') ->
  sum_amount (filter (fun r => (c && same_pair a b r) || same_pair a' b' r)
                     (unique_tips ts))
  = (if c then current_amount ts a b else 0) + current_amount ts a' b'
  /\ forall r,
      In r (filter (fun r => (c && same_pair a b r) || same_pair a' b' r)
                   (unique_tips ts))
      <-> (c = true /\ latest ts a b = Some r) \/ latest ts a' b' = Some r.
Proof.
  intros N. destruct c; cbn [andb orb].
  - split; [apply two_pairs_sum; assumption|].
    intros r. rewrite two_pairs_In. tauto.
  - rewrite unique_tips_pair, sum_amount_current. split; [lia|].
    intros r. destruct (latest ts a' b') as [r'|]; simpl.
    + split.
      * intros [->|[]]. auto.
      * intros [[H _]|H]; [discriminate|]. injection H as ->. auto.
    + split; [tauto|]. intros [[H _]|H]; discriminate.
Qed.

Lemma group_row ts (c : bool) a b a' b' :
  (a, b) <> (a', b') ->
  (c = true /\ latest ts a b <> None) \/ latest ts a' b' <> None ->
  exists r0 g,
    filter (fun r => (c && same_pair a b r) || same_pair a' b' r)
           (unique_tips ts) = r0 :: g
    /\ sum_amount (r0 :: g)
       = (if c then current_amount ts a b else 0) + current_amount ts a' b'
    /\ (forall r, (c = true /\ latest ts a b = Some r)
                  \/ latest ts a' b' = Some r ->
                  min_ctime (r0 :: g) <= ctime r)
    /\ exists r, ((c = true /\ latest ts a b = Some r)
                  \/ latest ts a' b' = Some r)
                 /\ min_ctime (r0 :: g) = ctime r.
Proof.
  intros N H. destruct (group_facts ts c a b a' b' N) as [Hsum Hin].
  destruct (filter _ (unique_tips ts)) as [|r0 g] eqn:E.
  - exfalso. destruct H as [[Hc H]|H].
    + destruct (latest ts a b) as [r|]; [|congruence].
      apply (proj2 (Hin r)). auto.
    + destruct (latest ts a' b') as [r|]; [|congruence].
      apply (proj2 (Hin r)). auto.
  - exists r0, g. split; [reflexivity|]. split; [exact Hsum|].
    destruct (min_ctime_spec (r0 :: g)) as [Hle (m & Hm & Em)]; [discriminate|].
    split.
    + intros r Hr. apply Hle, Hin, Hr.
    + exists m. split; [apply Hin, Hm|exact Em].
Qed.

(** C3. For a tipper [T] other than [x] with a current tip to [x] or to
    [y], the receiving statement inserts exactly one row: from [T] to
    [x], of the sum of the current amounts from [T] to [x] and to [y],
    created at the earliest creation time of those current rows, and it
    is the current tip from [T] to [x] once inserted after the rows of
    the table.  For a tippee [T] other than [x] of a current tip from
    [x] or [y], the tip from [x] to [y] left out, the giving statement
    inserts exactly one row from [x] to [T] in the same way.  The
    current tip of a pair is the row of the pair with the latest
    modification time. *)
Theorem C3_consolidated_rows ts x y stamp T :
  x <> y -> T <> x ->
  (latest ts T x <> None \/ latest ts T y <> None ->
   exists row,
     filter (fun r => tipper r == T)
            (select_tips_receiving x x y x y x stamp ts) = [row]
     /\ tipper row = T /\ tippee row = x /\ mtime row = stamp
     /\ amount row = current_amount ts T x + current_amount ts T y
     /\ (forall r, latest ts T x = Some r \/ latest ts T y = Some r ->
                   ctime row <= ctime r)
     /\ (exists r, (latest ts T x = Some r \/ latest ts T y = Some r)
                   /\ ctime row = ctime r)
     /\ ((forall r, In r ts -> mtime r < stamp) ->
         latest (CONSOLIDATE_TIPS_RECEIVING x x y x y x stamp ts) T x
         = Some row))
  /\ ((T <> y /\ latest ts x T <> None) \/ latest ts y T <> None ->
      exists row,
        filter (fun r => tippee r == T)
               (select_tips_giving x x y x y x stamp ts) = [row]
        /\ tipper row = x /\ tippee row = T /\ mtime row = stamp
        /\ amount row = (if T == y then 0 else current_amount ts x T)
                        + current_amount ts y T
        /\ (forall r, (T <> y /\ latest ts x T = Some r)
                      \/ latest ts y T = Some r ->
                      ctime row <= ctime r)
        /\ (exists r, ((T <> y /\ latest ts x T = Some r)
                       \/ latest ts y T = Some r)
                      /\ ctime row = ctime r)
        /\ ((forall r, In r ts -> mtime r < stamp) ->
            latest (CONSOLIDATE_TIPS_GIVING x x y x y x stamp ts) x T
            = Some row))
  /\ (forall a b r,
         latest ts a b = Some r ->
         In r ts /\ tipper r = a /\ tippee r = b
         /\ forall r', In r' ts -> tipper r' = a -> tippee r' = b ->
                       mtime r' <= mtime r).
Proof.
  intros Hxy HT. split; [|split].
  - intros Hcur.
    destruct (group_row ts true T x T y) as (r0 & g & Eg & Hsum & Hle & Hex).
    { congruence. }
    { destruct Hcur; auto. }
    cbn [andb] in Eg.
    exists (mkTip (min_ctime (r0 :: g)) T x (sum_amount (r0 :: g)) stamp).
    assert (Hof := receiving_of ts x y stamp T HT).
    assert (Hpair := receiving_pair ts x y stamp T HT).
    rewrite Eg in Hof, Hpair. cbn [tipper tippee mtime amount ctime].
    repeat split; try assumption.
    + intros r Hr. apply Hle. destruct Hr; auto.
    + destruct Hex as (r & Hr & E). exists r. split; [|exact E].
      destruct Hr as [[_ Hr]|Hr]; auto.
    + intros Hold. unfold CONSOLIDATE_TIPS_RECEIVING.
      pose proof (latest_insert ts (select_tips_receiving x x y x y x stamp ts)
                    T x stamp Hold) as Hins.
      rewrite Hpair in Hins.
      destruct Hins as (r & Hr & Hin & _).
      { intros r Hr. apply receiving_rows in Hr. tauto. }
      rewrite Hr. f_equal.
      assert (In r (filter (same_pair T x)
                      (select_tips_receiving x x y x y x stamp ts))) as X.
      { apply filter_In. split; [assumption|].
        eapply latest_pair; eassumption. }
      rewrite Hpair in X. destruct X as [<-|[]]. reflexivity.
  - intros Hcur.
    destruct (group_row ts (negb (T == y)) x T y T)
      as (r0 & g & Eg & Hsum & Hle & Hex).
    { congruence. }
    { destruct Hcur as [[Hy H]|H]; auto. left. split; [|assumption].
      apply negb_true_iff, String.eqb_neq. assumption. }
    exists (mkTip (min_ctime (r0 :: g)) x T (sum_amount (r0 :: g)) stamp).
    assert (Hof := giving_of ts x y stamp T HT).
    assert (Hpair := giving_pair ts x y stamp T HT).
    rewrite Eg in Hof, Hpair. cbn [tipper tippee mtime amount ctime].
    assert (Hc : forall P : Prop,
               (negb (T == y) = true /\ P) <-> (T <> y /\ P)).
    { intros P. rewrite negb_true_iff, String.eqb_neq. tauto. }
    repeat split; try assumption.
    + rewrite Hsum. destruct (T == y); reflexivity.
    + intros r Hr. apply Hle. rewrite Hc. exact Hr.
    + destruct Hex as (r & Hr & E). exists r. split; [|exact E].
      rewrite Hc in Hr. exact Hr.
    + intros Hold. unfold CONSOLIDATE_TIPS_GIVING.
      pose proof (latest_insert ts (select_tips_giving x x y x y x stamp ts)
                    x T stamp Hold) as Hins.
      rewrite Hpair in Hins.
      destruct Hins as (r & Hr & Hin & _).
      { intros r Hr. apply giving_rows in Hr. tauto. }
      rewrite Hr. f_equal.
      assert (In r (filter (same_pair x T)
                      (select_tips_giving x x y x y x stamp ts))) as X.
      { apply filter_In. split; [assumption|].
        eapply latest_pair; eassumption. }
      rewrite Hpair in X. destruct X as [<-|[]]. reflexivity.
  - intros a b r. apply latest_spec.
Qed.

(** The current amount from [T] to [x] after the receiving statement. *)
Lemma latest_app_none ts ins a b :
  filter (same_pair a b) ins = [] -> latest (ts ++ ins) a b = latest ts a b.
Proof.
  intros H. unfold latest. rewrite filter_app, H, app_nil_r. reflexivity.
Qed.

Lemma current_amount_app_none ts ins a b :
  filter (same_pair a b) ins = [] ->
  current_amount (ts ++ ins) a b = current_amount ts a b.
Proof.
  intros H. unfold current_amount. rewrite latest_app_none by assumption.
  reflexivity.
Qed.

Lemma inserted_single_current ts ins a b t row :
  (forall r, In r ts -> mtime r < t) ->
  (forall r, In r ins -> mtime r = t) ->
  filter (same_pair a b) ins = [row] ->
  latest (ts ++ ins) a b = Some row.
Proof.
  intros Hold Hins E.
  pose proof (latest_insert ts ins a b t Hold Hins) as H. rewrite E in H.
  destruct H as (r & Hr & Hin & Ha & Hb). rewrite Hr. f_equal.
  assert (In r (filter (same_pair a b) ins)) as X.
  { apply filter_In. split; [assumption|]. apply same_pair_true. auto. }
  rewrite E in X. destruct X as [<-|[]]. reflexivity.
Qed.

Lemma receiving_current ts x y stamp T :
  x <> y -> T <> x ->
  (forall r, In r ts -> mtime r < stamp) ->
  current_amount (CONSOLIDATE_TIPS_RECEIVING x x y x y x stamp ts) T x
  = current_amount ts T x + current_amount ts T y.
Proof.
  intros Hxy HT Hold. unfold CONSOLIDATE_TIPS_RECEIVING.
  assert (N : (T, x) <> (T, y)) by congruence.
  destruct (group_facts ts true T x T y N) as [Hsum Hin].
  cbn [andb] in Hsum, Hin.
  pose proof (receiving_pair ts x y stamp T HT) as Hpair.
  destruct (filter (fun r => same_pair T x r || same_pair T y r)
                   (unique_tips ts)) as [|r0 g] eqn:E.
  - rewrite current_amount_app_none by assumption.
    unfold current_amount.
    destruct (latest ts T y) as [r|]; [|lia].
    destruct (proj2 (Hin r)). auto.
  - unfold current_amount at 1.
    rewrite (inserted_single_current ts _ T x stamp _ Hold
               (fun r Hr => proj2 (proj2 (receiving_rows ts x y stamp r Hr)))
               Hpair).
    simpl amount. exact Hsum.
Qed.

(** The current amount from [x] to a third party [T] after the giving
    statement. *)
Lemma giving_current ts x y stamp T :
  x <> y -> T <> x -> T <> y ->
  (forall r, In r ts -> mtime r < stamp) ->
  current_amount (CONSOLIDATE_TIPS_GIVING x x y x y x stamp ts) x T
  = current_amount ts x T + current_amount ts y T.
Proof.
  intros Hxy HT HTy Hold. unfold CONSOLIDATE_TIPS_GIVING.
  assert (N : (x, T) <> (y, T)) by congruence.
  destruct (group_facts ts (negb (T == y)) x T y T N) as [Hsum Hin].
  pose proof (giving_pair ts x y stamp T HT) as Hpair.
  rewrite (proj2 (String.eqb_neq T y) HTy) in Hsum, Hin, Hpair.
  cbn [negb andb] in Hsum, Hin, Hpair.
  destruct (filter (fun r => same_pair x T r || same_pair y T r)
                   (unique_tips ts)) as [|r0 g] eqn:E.
  - rewrite current_amount_app_none by assumption.
    unfold current_amount.
    destruct (latest ts y T) as [r|]; [|lia].
    destruct (proj2 (Hin r)). auto.
  - unfold current_amount at 1.
    rewrite (inserted_single_current ts _ x T stamp _ Hold
               (fun r Hr => proj2 (proj2 (giving_rows ts x y stamp r Hr)))
               Hpair).
    simpl amount. exact Hsum.
Qed.

(* ================================================================== *)
(** ** The two zeroing statements *)

Lemma distinct_on_In key rows r :
  In r (distinct_on key rows) -> In r rows.
Proof.
  unfold distinct_on. intros H. apply in_flat_map in H.
  destruct H as (k & _ & H).
  destruct (find (fun r0 => key r0 == k) rows) as [r'|] eqn:E;
    simpl in H; [|tauto].
  destruct H as [<-|[]]. apply find_some in E. tauto.
Qed.

Lemma distinct_on_covers key rows r0 :
  In r0 rows -> exists r, In r (distinct_on key rows) /\ key r = key r0.
Proof.
  intros H0. unfold distinct_on.
  destruct (find (fun r => key r == key r0) rows) as [r|] eqn:E.
  - exists r. pose proof (find_some _ _ E) as [_ Hk].
    apply String.eqb_eq in Hk. split; [|assumption].
    apply in_flat_map. exists (key r0). split.
    + apply nodup_In, in_map. assumption.
    + rewrite E. left. reflexivity.
  - exfalso. pose proof (find_none _ _ E r0 H0) as Hn.
    cbv beta in Hn. rewrite String.eqb_refl in Hn. discriminate.
Qed.

(** The rows the first zeroing statement inserts: amount [0], to [y],
    from a tipper who has a row to [y] in the table. *)
Lemma zero_receiving_rows y stamp ts r :
  In r (select_zero_receiving y stamp ts) ->
  tippee r = y /\ amount r = 0 /\ mtime r = stamp.
Proof.
  unfold select_zero_receiving. intros H. apply in_map_iff in H.
  destruct H as (r0 & <- & H0). apply distinct_on_In, filter_In in H0.
  destruct H0 as [_ E]. apply String.eqb_eq in E. simpl. auto.
Qed.

Lemma zero_giving_rows y stamp ts r :
  In r (select_zero_giving y stamp ts) ->
  tipper r = y /\ amount r = 0 /\ mtime r = stamp.
Proof.
  unfold select_zero_giving. intros H. apply in_map_iff in H.
  destruct H as (r0 & <- & H0). apply distinct_on_In, filter_In in H0.
  destruct H0 as [_ E]. apply String.eqb_eq in E. simpl. auto.
Qed.

Lemma zero_receiving_covers y stamp ts r0 :
  In r0 ts -> tippee r0 = y ->
  exists r l, filter (same_pair (tipper r0) y) (select_zero_receiving y stamp ts)
              = r :: l.
Proof.
  intros H0 Hy.
  destruct (distinct_on_covers tipper (filter (fun r => tippee r == y) ts) r0)
    as (r & Hr & Hk).
  { apply filter_In. split; [assumption|]. apply String.eqb_eq. assumption. }
  assert (In (zeroed stamp r)
             (filter (same_pair (tipper r0) y)
                     (select_zero_receiving y stamp ts))) as X.
  { apply filter_In. split.
    - unfold select_zero_receiving. apply in_map. assumption.
    - apply same_pair_true. simpl. split; [assumption|].
      apply distinct_on_In, filter_In in Hr. destruct Hr as [_ E].
      apply String.eqb_eq in E. assumption. }
  destruct (filter _ (select_zero_receiving y stamp ts)) as [|r' l];
    [destruct X|eauto].
Qed.

Lemma zero_giving_covers y stamp ts r0 :
  In r0 ts -> tipper r0 = y ->
  exists r l, filter (same_pair y (tippee r0)) (select_zero_giving y stamp ts)
              = r :: l.
Proof.
  intros H0 Hy.
  destruct (distinct_on_covers tippee (filter (fun r => tipper r == y) ts) r0)
    as (r & Hr & Hk).
  { apply filter_In. split; [assumption|]. apply String.eqb_eq. assumption. }
  assert (In (zeroed stamp r)
             (filter (same_pair y (tippee r0))
                     (select_zero_giving y stamp ts))) as X.
  { apply filter_In. split.
    - unfold select_zero_giving. apply in_map. assumption.
    - apply same_pair_true. simpl. split; [|assumption].
      apply distinct_on_In, filter_In in Hr. destruct Hr as [_ E].
      apply String.eqb_eq in E. assumption. }
  destruct (filter _ (select_zero_giving y stamp ts)) as [|r' l];
    [destruct X|eauto].
Qed.

(** After the first zeroing statement the current tip of whoever had a
    row to [y] is one of the inserted rows. *)
Lemma zero_receiving_latest y stamp ts r0 :
  (forall r, In r ts -> mtime r < stamp) ->
  In r0 ts -> tippee r0 = y ->
  exists r, latest (ZERO_OUT_OLD_TIPS_RECEIVING y stamp ts) (tipper r0) y = Some r
            /\ amount r = 0 /\ mtime r = stamp.
Proof.
  intros Hold H0 Hy. unfold ZERO_OUT_OLD_TIPS_RECEIVING.
  pose proof (latest_insert ts (select_zero_receiving y stamp ts)
                (tipper r0) y stamp Hold) as H.
  destruct (zero_receiving_covers y stamp ts r0 H0 Hy) as (r' & l & E).
  rewrite E in H. destruct H as (r & Hr & Hin & _).
  { intros r Hr. apply zero_receiving_rows in Hr. tauto. }
  exists r. split; [assumption|]. apply zero_receiving_rows in Hin. tauto.
Qed.

Lemma zero_giving_latest y stamp ts r0 :
  (forall r, In r ts -> mtime r < stamp) ->
  In r0 ts -> tipper r0 = y ->
  exists r, latest (ZERO_OUT_OLD_TIPS_GIVING y stamp ts) y (tippee r0) = Some r
            /\ amount r = 0 /\ mtime r = stamp.
Proof.
  intros Hold H0 Hy. unfold ZERO_OUT_OLD_TIPS_GIVING.
  pose proof (latest_insert ts (select_zero_giving y stamp ts)
                y (tippee r0) stamp Hold) as H.
  destruct (zero_giving_covers y stamp ts r0 H0 Hy) as (r' & l & E).
  rewrite E in H. destruct H as (r & Hr & Hin & _).
  { intros r Hr. apply zero_giving_rows in Hr. tauto. }
  exists r. split; [assumption|]. apply zero_giving_rows in Hin. tauto.
Qed.

(** Whether or not there was a row, the current amount is [0] then. *)
Lemma zero_receiving_current y stamp ts T :
  (forall r, In r ts -> mtime r < stamp) ->
  current_amount (ZERO_OUT_OLD_TIPS_RECEIVING y stamp ts) T y = 0.
Proof.
  intros Hold. unfold current_amount.
  destruct (latest ts T y) as [r0|] eqn:E.
  - apply latest_spec in E. destruct E as (H0 & <- & Hy & _).
    destruct (zero_receiving_latest y stamp ts r0 Hold H0 Hy) as (r & -> & Ha & _).
    exact Ha.
  - unfold ZERO_OUT_OLD_TIPS_RECEIVING.
    destruct (latest (ts ++ select_zero_receiving y stamp ts) T y) as [r|] eqn:L;
      [|reflexivity].
    apply latest_spec in L. destruct L as (Hin & Ha & Hb & _).
    apply in_app_or in Hin. destruct Hin as [Hin|Hin].
    + exfalso. exact (proj1 (latest_none ts T y) E r Hin (conj Ha Hb)).
    + apply zero_receiving_rows in Hin. tauto.
Qed.

Lemma zero_giving_current y stamp ts T :
  (forall r, In r ts -> mtime r < stamp) ->
  current_amount (ZERO_OUT_OLD_TIPS_GIVING y stamp ts) y T = 0.
Proof.
  intros Hold. unfold current_amount.
  destruct (latest ts y T) as [r0|] eqn:E.
  - apply latest_spec in E. destruct E as (H0 & Hy & <- & _).
    destruct (zero_giving_latest y stamp ts r0 Hold H0 Hy) as (r & -> & Ha & _).
    exact Ha.
  - unfold ZERO_OUT_OLD_TIPS_GIVING.
    destruct (latest (ts ++ select_zero_giving y stamp ts) y T) as [r|] eqn:L;
      [|reflexivity].
    apply latest_spec in L. destruct L as (Hin & Ha & Hb & _).
    apply in_app_or in Hin. destruct Hin as [Hin|Hin].
    + exfalso. exact (proj1 (latest_none ts y T) E r Hin (conj Ha Hb)).
    + apply zero_giving_rows in Hin. tauto.
Qed.

Lemma zero_receiving_pair_none y stamp ts a b :
  b <> y -> filter (same_pair a b) (select_zero_receiving y stamp ts) = [].
Proof.
  intros H. apply filter_nil_iff. intros r Hr.
  apply zero_receiving_rows in Hr. destruct Hr as (Hb & _).
  destruct (same_pair a b r) eqn:E; [|reflexivity].
  apply same_pair_true in E. destruct E as [_ <-]. contradiction.
Qed.

Lemma zero_giving_pair_none y stamp ts a b :
  a <> y -> filter (same_pair a b) (select_zero_giving y stamp ts) = [].
Proof.
  intros H. apply filter_nil_iff. intros r Hr.
  apply zero_giving_rows in Hr. destruct Hr as (Ha & _).
  destruct (same_pair a b r) eqn:E; [|reflexivity].
  apply same_pair_true in E. destruct E as [<- _]. contradiction.
Qed.

(* ================================================================== *)
(** ** The table after "Take over tips." *)

Section Merged.

Variables (w : env) (x y : string) (ts : list tip).
Hypothesis Hstamps : stamps_advance w ts.

Lemma merged_unfold :
  take_over_tips w x y ts
  = ZERO_OUT_OLD_TIPS_GIVING y (mtime_default w 3) (tips_zeroed_to w x y ts).
Proof. reflexivity. Qed.

Lemma older_ts : forall r, In r ts -> mtime r < mtime_default w 0.
Proof. apply Hstamps. Qed.

Lemma older_consolidated_to : forall r, In r (tips_consolidated_to w x y ts) -> mtime r < mtime_default w 1.
Proof.
  destruct Hstamps as (H0 & H1 & _).
  apply (stamped_app ts _ (mtime_default w 0)); auto.
  intros r Hr. apply receiving_rows in Hr. tauto.
Qed.

Lemma older_consolidated : forall r, In r (tips_consolidated w x y ts) -> mtime r < mtime_default w 2.
Proof.
  destruct Hstamps as (_ & _ & H2 & _).
  apply (stamped_app (tips_consolidated_to w x y ts) _ (mtime_default w 1)); auto using older_consolidated_to.
  intros r Hr. apply giving_rows in Hr. tauto.
Qed.

Lemma older_zeroed_to : forall r, In r (tips_zeroed_to w x y ts) -> mtime r < mtime_default w 3.
Proof.
  destruct Hstamps as (_ & _ & _ & H3).
  apply (stamped_app (tips_consolidated w x y ts) _ (mtime_default w 2)); auto using older_consolidated.
  intros r Hr. apply zero_receiving_rows in Hr. tauto.
Qed.

(** What third parties give to [x] and [y] together, they give to [x]
    afterwards. *)
Lemma merged_conserves_receiving Z :
  x <> y -> Z <> x -> Z <> y ->
  current_amount (take_over_tips w x y ts) Z x
  = current_amount ts Z x + current_amount ts Z y.
Proof.
  intros Hxy Hx Hy. rewrite merged_unfold.
  unfold ZERO_OUT_OLD_TIPS_GIVING.
  rewrite current_amount_app_none by (apply zero_giving_pair_none; assumption).
  unfold tips_zeroed_to, ZERO_OUT_OLD_TIPS_RECEIVING.
  rewrite current_amount_app_none by (apply zero_receiving_pair_none; assumption).
  unfold tips_consolidated, CONSOLIDATE_TIPS_GIVING.
  rewrite current_amount_app_none by (apply giving_pair_none; auto).
  apply receiving_current; auto using older_ts.
Qed.

(** What [x] and [y] together give to a third party, [x] gives
    afterwards. *)
Lemma merged_conserves_giving Z :
  x <> y -> Z <> x -> Z <> y ->
  current_amount (take_over_tips w x y ts) x Z
  = current_amount ts x Z + current_amount ts y Z.
Proof.
  intros Hxy Hx Hy. rewrite merged_unfold.
  unfold ZERO_OUT_OLD_TIPS_GIVING.
  rewrite current_amount_app_none by (apply zero_giving_pair_none; assumption).
  unfold tips_zeroed_to, ZERO_OUT_OLD_TIPS_RECEIVING.
  rewrite current_amount_app_none by (apply zero_receiving_pair_none; auto).
  unfold tips_consolidated. rewrite giving_current by auto using older_consolidated_to.
  unfold tips_consolidated_to, CONSOLIDATE_TIPS_RECEIVING.
  rewrite !current_amount_app_none by (apply receiving_pair_none; auto).
  reflexivity.
Qed.

(** Nothing is left between [x] and [y]. *)
Lemma merged_zero_x_y :
  x <> y -> current_amount (take_over_tips w x y ts) x y = 0.
Proof.
  intros Hxy. rewrite merged_unfold. unfold ZERO_OUT_OLD_TIPS_GIVING.
  rewrite current_amount_app_none by (apply zero_giving_pair_none; assumption).
  apply zero_receiving_current, older_consolidated.
Qed.

Lemma merged_zero_y_x :
  current_amount (take_over_tips w x y ts) y x = 0.
Proof.
  rewrite merged_unfold. apply zero_giving_current, older_zeroed_to.
Qed.

Lemma merged_is_new r t :
  mtime r = t -> mtime_default w 2 <= t -> ~ In r ts.
Proof.
  intros E Hle Hin. pose proof (older_ts r Hin).
  destruct Hstamps as (_ & H1 & H2 & _). lia.
Qed.

(** Whoever had a current tip to [y] has a new one of amount [0]. *)
Lemma merged_zero_to T :
  latest ts T y <> None ->
  exists r, latest (take_over_tips w x y ts) T y = Some r
            /\ amount r = 0 /\ ~ In r ts.
Proof.
  intros H. destruct (latest ts T y) as [r0|] eqn:E; [clear H|congruence].
  apply latest_spec in E. destruct E as (H0 & <- & Hy & _).
  assert (In r0 (tips_consolidated w x y ts)) as H2.
  { unfold tips_consolidated, CONSOLIDATE_TIPS_GIVING, tips_consolidated_to,
  CONSOLIDATE_TIPS_RECEIVING.
    apply in_or_app. left. apply in_or_app. left. assumption. }
  destruct (zero_receiving_latest y (mtime_default w 2) (tips_consolidated w x y ts) r0 older_consolidated H2 Hy)
    as (r3 & L3 & A3 & M3).
  fold (tips_zeroed_to w x y ts) in L3. rewrite merged_unfold.
  destruct (string_dec (tipper r0) y) as [Ey|Ny].
  - pose proof (latest_spec _ _ _ _ L3) as (I3 & T3 & P3 & _).
    rewrite Ey in T3.
    destruct (zero_giving_latest y (mtime_default w 3) (tips_zeroed_to w x y ts) r3 older_zeroed_to I3 T3)
      as (r4 & L4 & A4 & M4).
    rewrite P3 in L4. rewrite Ey. exists r4. repeat split; try assumption.
    apply (merged_is_new r4 _ M4).
    destruct Hstamps as (_ & _ & _ & ?). lia.
  - unfold ZERO_OUT_OLD_TIPS_GIVING.
    rewrite latest_app_none by (apply zero_giving_pair_none; assumption).
    exists r3. repeat split; try assumption.
    apply (merged_is_new r3 _ M3). lia.
Qed.

(** Whoever [y] had a current tip to is given a new one of amount [0]. *)
Lemma merged_zero_from T :
  latest ts y T <> None ->
  exists r, latest (take_over_tips w x y ts) y T = Some r
            /\ amount r = 0 /\ ~ In r ts.
Proof.
  intros H. destruct (latest ts y T) as [r0|] eqn:E; [clear H|congruence].
  apply latest_spec in E. destruct E as (H0 & Hy & <- & _).
  assert (In r0 (tips_zeroed_to w x y ts)) as H3.
  { unfold tips_zeroed_to, ZERO_OUT_OLD_TIPS_RECEIVING, tips_consolidated,
      CONSOLIDATE_TIPS_GIVING, tips_consolidated_to, CONSOLIDATE_TIPS_RECEIVING.
    apply in_or_app. left. apply in_or_app. left. apply in_or_app. left.
    assumption. }
  destruct (zero_giving_latest y (mtime_default w 3) (tips_zeroed_to w x y ts) r0 older_zeroed_to H3 Hy)
    as (r4 & L4 & A4 & M4).
  rewrite merged_unfold. exists r4. repeat split; try assumption.
  apply (merged_is_new r4 _ M4).
  destruct Hstamps as (_ & _ & _ & ?). lia.
Qed.

End Merged.

(** The statements only add rows. *)
Lemma take_over_tips_appends w x y ts :
  exists ins, take_over_tips w x y ts = ts ++ ins.
Proof.
  unfold take_over_tips, tips_zeroed_to, tips_consolidated,
    tips_consolidated_to, ZERO_OUT_OLD_TIPS_GIVING,
    ZERO_OUT_OLD_TIPS_RECEIVING, CONSOLIDATE_TIPS_GIVING,
    CONSOLIDATE_TIPS_RECEIVING.
  rewrite <- !app_assoc. eauto.
Qed.

Lemma sum_amount_nonneg g :
  (forall r, In r g -> 0 <= amount r) -> 0 <= sum_amount g.
Proof.
  unfold sum_amount. induction g as [|r g IH]; simpl; intros H; [lia|].
  specialize (IH (fun r0 H0 => H r0 (or_intror H0))).
  specialize (H r (or_introl eq_refl)). lia.
Qed.

Lemma unique_tips_incl ts r : In r (unique_tips ts) -> In r ts.
Proof.
  intros H. apply unique_tips_In, latest_spec in H. tauto.
Qed.

(** No statement inserts a negative amount into a table without one. *)
Lemma take_over_tips_nonneg w x y ts :
  (forall r, In r ts -> 0 <= amount r) ->
  forall r, In r (take_over_tips w x y ts) -> 0 <= amount r.
Proof.
  intros H0.
  assert (Hgroup : forall key mk rows (f : tip -> bool) r,
    (forall k g, amount (mk k g) = sum_amount g) ->
    (forall r0, In r0 rows -> 0 <= amount r0) ->
    In r (group_by key mk (filter f (unique_tips rows))) -> 0 <= amount r).
  { intros key mk rows f r Hmk Hrows Hr. apply group_by_In in Hr.
    destruct Hr as (k & -> & _). rewrite Hmk. apply sum_amount_nonneg.
    intros r0 Hr0. apply filter_In in Hr0. destruct Hr0 as [Hr0 _].
    apply filter_In in Hr0. destruct Hr0 as [Hr0 _].
    apply Hrows, unique_tips_incl, Hr0. }
  assert (H1 : forall r, In r (CONSOLIDATE_TIPS_RECEIVING x x y x y x
                                 (mtime_default w 0) ts) -> 0 <= amount r).
  { intros r Hr. apply in_app_or in Hr. destruct Hr as [Hr|Hr]; [auto|].
    eapply Hgroup; [| |exact Hr]; [reflexivity|exact H0]. }
  assert (H2 : forall r, In r (CONSOLIDATE_TIPS_GIVING x x y x y x
                                 (mtime_default w 1)
                                 (CONSOLIDATE_TIPS_RECEIVING x x y x y x
                                    (mtime_default w 0) ts)) -> 0 <= amount r).
  { intros r Hr. apply in_app_or in Hr. destruct Hr as [Hr|Hr]; [auto|].
    eapply Hgroup; [| |exact Hr]; [reflexivity|exact H1]. }
  intros r Hr. unfold take_over_tips in Hr.
  apply in_app_or in Hr. destruct Hr as [Hr|Hr].
  - apply in_app_or in Hr. destruct Hr as [Hr|Hr]; [auto|].
    apply zero_receiving_rows in Hr. lia.
  - apply zero_giving_rows in Hr. lia.
Qed.

(* ================================================================== *)
(** ** Tips after a merge *)

(** A run that returns with the second fact true leaves [tips] as the
    four statements make it. *)
Lemma take_over_merged_tips w fuel x pf uid hc db db' other n :
  take_over w fuel x pf uid hc db = (Return tt, db') ->
  facts x pf uid db = Some (other, n) ->
  this_is_others_last_account_elsewhere n = true ->
  tips db' = take_over_tips w x other (tips db).
Proof.
  intros Hrun Hfacts HB.
  destruct (take_over_returns _ _ _ _ _ _ _ _ Hrun) as (o & m & Hf & _ & Hp).
  rewrite Hfacts in Hf. injection Hf as <- <-.
  rewrite (proceed_tips _ _ _ _ _ _ _ _ _ Hp), HB. reflexivity.
Qed.

(** What becomes of the claims on the current tips after a merge when
    the inserts advance in time, one stamp after the other: then every
    sum is conserved and every tip of the absorbed participant is zero,
    the tip from [other] to [x] included. *)
Lemma merge_when_stamps_advance w fuel x pf uid hc db db' other n :
  take_over w fuel x pf uid hc db = (Return tt, db') ->
  facts x pf uid db = Some (other, n) ->
  this_is_others_last_account_elsewhere n = true ->
  x <> other ->
  stamps_advance w (tips db) ->
  (forall Z, Z <> x -> Z <> other ->
     current_amount (tips db') Z x
     = current_amount (tips db) Z x + current_amount (tips db) Z other
     /\ current_amount (tips db') x Z
        = current_amount (tips db) x Z + current_amount (tips db) other Z)
  /\ current_amount (tips db') x other = 0
  /\ current_amount (tips db') other x = 0
  /\ (forall T, latest (tips db) T other <> None ->
        exists r, latest (tips db') T other = Some r
                  /\ amount r = 0 /\ ~ In r (tips db))
  /\ (forall T, latest (tips db) other T <> None ->
        exists r, latest (tips db') other T = Some r
                  /\ amount r = 0 /\ ~ In r (tips db)).
Proof.
  intros Hrun Hfacts HB Hxy Hst.
  rewrite (take_over_merged_tips _ _ _ _ _ _ _ _ _ _ Hrun Hfacts HB).
  split; [|split; [|split; [|split]]].
  - intros Z Hx Hy. split.
    + apply merged_conserves_receiving; assumption.
    + apply merged_conserves_giving; assumption.
  - apply merged_zero_x_y; assumption.
  - apply merged_zero_y_x; assumption.
  - intros T. apply merged_zero_to; assumption.
  - intros T. apply merged_zero_from; assumption.
Qed.

(** C2, the code at the failing input.  The four inserts run in one
    transaction and get one stamp.  [y] gave 30 to [x]; the receiving
    statement carries that tip over as a new row from [y] to [x] of 30
    (it leaves out the tips from [x] only), the last statement adds
    the row of 0, and both bear the latest stamp of the pair: the tip
    from [y] to [x] is not driven to 0, the current amount stays 30. *)
Theorem C2_cross_tip_is_left_standing :
  exists db',
    take_over Sample.world_one_stamp 5 "x" "github" "1" false
              Sample.last_account = (Return tt, db')
    /\ facts "x" "github" "1" Sample.last_account
       = Some ("y", mkNeedConfirmation false true false)
    /\ (forall r, In r (tips Sample.last_account) -> mtime r < 100)
    /\ current_amount (tips Sample.last_account) "y" "x" = 30
    /\ current_amount (tips db') "y" "x" = 30
    /\ In (mkTip 5 "y" "x" 30 100) (tips db')
    /\ In (mkTip 5 "y" "x" 0 100) (tips db')
    /\ forall r, In r (tips db') -> mtime r <= 100.
Proof.
  eexists. split; [vm_compute; reflexivity|].
  split; [vm_compute; reflexivity|].
  split.
  { intros r H. simpl in H.
    repeat (destruct H as [<-|H]; [simpl; lia|]). destruct H. }
  split; [vm_compute; reflexivity|].
  split; [vm_compute; reflexivity|].
  split; [vm_compute; tauto|].
  split; [vm_compute; tauto|].
  intros r H. vm_compute in H.
  repeat (destruct H as [<-|H]; [discriminate|]). destruct H.
Qed.

(** C4, the code at the failing input.  In the same run [y] had a
    current tip to [x]; afterwards the current tip from [y] to [x] is
    the row of 30 the receiving statement inserted, not a row of 0:
    the row of 0 is there, with the same stamp, and is not the one in
    force. *)
Theorem C4_zero_row_is_not_current :
  exists db',
    take_over Sample.world_one_stamp 5 "x" "github" "1" false
              Sample.last_account = (Return tt, db')
    /\ facts "x" "github" "1" Sample.last_account
       = Some ("y", mkNeedConfirmation false true false)
    /\ latest (tips Sample.last_account) "y" "x" = Some (mkTip 5 "y" "x" 30 5)
    /\ latest (tips db') "y" "x" = Some (mkTip 5 "y" "x" 30 100)
    /\ In (mkTip 5 "y" "x" 0 100) (tips db').
Proof.
  eexists. split; [vm_compute; reflexivity|].
  split; [vm_compute; reflexivity|].
  split; [vm_compute; reflexivity|].
  split; [vm_compute; reflexivity|].
  vm_compute. tauto.
Qed.

(** C10. If no amount in [tips] is negative before the call, a call
    that returns has only added rows, none of them of a negative
    amount, so no amount in [tips] is negative after it. *)
Theorem C10_amounts_stay_nonnegative w fuel x pf uid hc db db' :
  take_over w fuel x pf uid hc db = (Return tt, db') ->
  (forall r, In r (tips db) -> 0 <= amount r) ->
  (exists ins, tips db' = tips db ++ ins
               /\ forall r, In r ins -> 0 <= amount r)
  /\ forall r, In r (tips db') -> 0 <= amount r.
Proof.
  intros Hrun Hnn.
  destruct (take_over_returns _ _ _ _ _ _ _ _ Hrun) as (o & m & Hf & _ & Hp).
  pose proof (proceed_tips _ _ _ _ _ _ _ _ _ Hp) as Ht.
  assert (Hall : forall r, In r (tips db') -> 0 <= amount r).
  { rewrite Ht. destruct (this_is_others_last_account_elsewhere m).
    - apply take_over_tips_nonneg; assumption.
    - assumption. }
  split; [|exact Hall].
  assert (exists ins, tips db' = tips db ++ ins) as [ins E].
  { rewrite Ht. destruct (this_is_others_last_account_elsewhere m).
    - apply take_over_tips_appends.
    - exists []. rewrite app_nil_r. reflexivity. }
  exists ins. split; [exact E|].
  intros r Hr. apply Hall. rewrite E. apply in_or_app. auto.
Qed.

(* ================================================================== *)
(** ** A move without a merge *)

Lemma UPDATE_elsewhere_by_user_id_owner x pf uid db e :
  In e (elsewhere (UPDATE_elsewhere_by_user_id x pf uid db)) ->
  platform e = pf -> user_id e = uid -> participant e = x.
Proof.
  unfold UPDATE_elsewhere_by_user_id. simpl. intros H Hp Hu.
  apply in_map_iff in H. destruct H as (e0 & E & _).
  destruct ((platform e0 == pf) && (user_id e0 == uid)) eqn:C.
  - subst e. reflexivity.
  - subst e. rewrite Hp, Hu, !String.eqb_refl in C. discriminate.
Qed.


(** The reservation returns when a free candidate comes within the fuel. *)
Lemma reserve_a_random_username_returns gen fuel : forall j db,
  (exists i, (j <= i < j + fuel)%nat /\ taken (gen i) (participants db) = false) ->
  exists u db1, reserve_a_random_username gen fuel j db = (Return u, db1).
Proof.
  induction fuel as [|fuel IH]; intros j db (i & Hi & Hfree).
  - lia.
  - simpl. destruct (taken (gen j) (participants db)) eqn:E; [|eauto].
    apply IH. exists i. split; [|assumption].
    assert (i <> j) by (intros ->; congruence). lia.
Qed.


(* ================================================================== *)
(** ** A second call *)

Lemma hd_error_In {A} (l : list A) a : hd_error l = Some a -> In a l.
Proof. destruct l; simpl; [discriminate|]. intros H; injection H; auto. Qed.

Lemma filter_length_pos {A} (f : A -> bool) l a :
  In a l -> f a = true -> 1 <= Z.of_nat (List.length (filter f l)).
Proof.
  intros Hin Hf.
  assert (In a (filter f l)) as X by (apply filter_In; auto).
  destruct (filter f l); [destruct X|]. simpl List.length. lia.
Qed.

(** The owner found by the first query owns an account, and one on
    that platform. *)
Lemma SELECT_connection_owner pf uid db o s :
  SELECT_connection pf uid db = Some (o, s) ->
  1 <= SELECT_nelsewhere o db /\ 1 <= SELECT_nparticipants o pf db.
Proof.
  unfold SELECT_connection. intros H. apply hd_error_In, in_flat_map in H.
  destruct H as (e & He & H). apply in_map_iff in H.
  destruct H as (p & E & _). injection E as <- _.
  apply filter_In in He. destruct He as [He Hc].
  apply andb_true_iff in Hc. destruct Hc as [Hp _].
  unfold SELECT_nelsewhere, SELECT_nparticipants. split.
  - apply (filter_length_pos _ _ e He). apply String.eqb_refl.
  - apply (filter_length_pos _ _ e He). rewrite String.eqb_refl. exact Hp.
Qed.

(** A run that does not return leaves the database as it was. *)
Lemma take_over_rolls_back w fuel x pf uid hc db :
  fst (take_over w fuel x pf uid hc db) <> Return tt ->
  snd (take_over w fuel x pf uid hc db) = db.
Proof.
  unfold take_over.
  destruct (take_over_body w fuel x pf uid hc db) as [[[]|e|] db'];
    simpl; congruence.
Qed.

(** C9, as the code has it.  When the account already belongs to [x],
    no check compares the owner with anyone: the owner found is [x]
    itself, so the third fact is true; a call without confirmation
    raises [NeedConfirmation(A, B, True)] when [x] has one account on
    the platform and fails the sanity check on that count otherwise,
    and leaves the database as it was. *)
Theorem C9_second_call_needs_confirmation w fuel x pf uid db is_stub :
  SELECT_connection pf uid db = Some (x, is_stub) ->
  snd (take_over w fuel x pf uid false db) = db
  /\ (SELECT_nparticipants x pf db = 1 ->
      fst (take_over w fuel x pf uid false db)
      = Raise (ExnNeedConfirmation
                 (mkNeedConfirmation (negb is_stub)
                                     (SELECT_nelsewhere x db =? 1) true)))
  /\ (SELECT_nparticipants x pf db <> 1 ->
      fst (take_over w fuel x pf uid false db) = Raise AssertionError).
Proof.
  intros Hown.
  destruct (SELECT_connection_owner _ _ _ _ _ Hown) as [Hn Hm].
  assert (Hbody : take_over_body w fuel x pf uid false db
                  = if SELECT_nparticipants x pf db =? 1
                    then (Raise (ExnNeedConfirmation
                            (mkNeedConfirmation (negb is_stub)
                               (SELECT_nelsewhere x db =? 1) true)), db)
                    else (Raise AssertionError, db)).
  { rewrite take_over_body_eq. unfold facts. rewrite Hown.
    destruct (Z.ltb_spec 0 (SELECT_nelsewhere x db)); [|lia].
    unfold in_0_1.
    destruct (Z.eqb_spec (SELECT_nparticipants x pf db) 0); [lia|].
    destruct (Z.eqb_spec (SELECT_nparticipants x pf db) 1); simpl.
    - unfold nonzero. simpl. rewrite orb_true_r. reflexivity.
    - reflexivity. }
  unfold take_over. rewrite Hbody.
  destruct (Z.eqb_spec (SELECT_nparticipants x pf db) 1); simpl;
    repeat split; congruence.
Qed.

(** C9 as stated fails.  After the merge of the sample run, the same
    call with confirmation (the generator coming up with candidates
    that are free) is not stopped by any check: it goes through the
    whole workflow, archives [x] itself and writes a second row of
    [absorptions]; without confirmation it raises [NeedConfirmation],
    not a failed check. *)
Lemma C9_second_call_not_refused :
  exists db1 db2,
    take_over Sample.world 5 "x" "github" "1" false Sample.last_account
    = (Return tt, db1)
    /\ SELECT_connection "github" "1" db1 = Some ("x", false)
    /\ take_over Sample.world_again 5 "x" "github" "1" true db1
       = (Return tt, db2)
    /\ absorptions db1 = [mkAbsorption "y" "x" "arch0"]
    /\ absorptions db2 = [mkAbsorption "y" "x" "arch0";
                          mkAbsorption "x" "x" "arch1"]
    /\ fst (take_over Sample.world 5 "x" "github" "1" false db1)
       = Raise (ExnNeedConfirmation (mkNeedConfirmation true true true))
    /\ fst (take_over Sample.world 5 "x" "github" "1" false db1)
       <> Raise AssertionError.
Proof.
  eexists. eexists.
  split; [vm_compute; reflexivity|].
  split; [vm_compute; reflexivity|].
  split; [vm_compute; reflexivity|].
  split; [vm_compute; reflexivity|].
  split; [vm_compute; reflexivity|].
  split; [vm_compute; reflexivity|].
  vm_compute. discriminate.
Qed.

(* ================================================================== *)
(** ** The archive loop *)

(** Once a rename has failed the loop gets nowhere: the next rename is
    refused. *)
Lemma archive_loop_from_aborted w other fuel i db :
  archive_loop_from w other true fuel i db
  = match fuel with
    | O => (Spinning, db)
    | S _ => (Raise (DatabaseError InternalError), db)
    end.
Proof. destruct fuel; reflexivity. Qed.

Ltac aborted_cannot H :=
  rewrite archive_loop_from_aborted in H;
  match type of H with
  | context [match ?f with O => _ | S _ => _ end] => destruct f
  end; discriminate H.

(** Whatever integrity constraint the rename breaks, the exception is
    caught, nothing is changed, and the loop goes on to the next
    candidate in a transaction that has failed. *)
Lemma archive_loop_integrity_error w other fuel i db v db' :
  UPDATE_participants w (archive_usernames w i)
                      (lower (archive_usernames w i)) other db
  = (Raise (DatabaseError (IntegrityError v)), db') ->
  db' = db
  /\ archive_loop w other (S fuel) i db
     = archive_loop_from w other true fuel (S i) db.
Proof.
  intros H.
  pose proof (UPDATE_participants_spec w (archive_usernames w i)
                (lower (archive_usernames w i)) other db) as S.
  unfold archive_loop. simpl. rewrite H in *. destruct S as [-> _]. auto.
Qed.

(** A failure of another class ends the loop with that failure. *)
Lemma archive_loop_other_error w other fuel i db e :
  rename_failure w (archive_usernames w i) = Some e ->
  (forall v, e <> IntegrityError v) ->
  archive_loop w other (S fuel) i db = (Raise (DatabaseError e), db).
Proof.
  intros H N. unfold archive_loop. simpl. unfold UPDATE_participants.
  rewrite H. destruct e; try reflexivity. destruct (N v eq_refl).
Qed.

(** The handle the loop settles on is held by no other row, neither as
    [username] nor in lower case as [username_lower]. *)
Lemma archive_loop_accepts w other fuel : forall i db u db',
  archive_loop w other fuel i db = (Return u, db') ->
  forall p, In p (participants db) -> username p <> other ->
            username p <> u /\ username_lower p <> lower u.
Proof.
  intros i db u db'. unfold archive_loop.
  destruct fuel as [|fuel]; simpl; [discriminate|].
  unfold UPDATE_participants in *.
  destruct (rename_failure w (archive_usernames w i)) as [e|].
  - destruct e; try discriminate. intros H. aborted_cannot H.
  - destruct (filter (fun p => username p == other) (participants db))
      as [|q [|q' l]].
    + cbn. discriminate.
    + destruct (existsb _ _) eqn:E; [intros H; aborted_cannot H|].
      cbn. rewrite String.eqb_refl. cbn. intros H. injection H as <- _.
      intros p Hp Hne.
      assert (In p (filter (fun p => negb (username p == other))
                           (participants db))) as X.
      { apply filter_In. split; [assumption|].
        apply negb_true_iff, String.eqb_neq. assumption. }
      destruct (String.eqb_spec (username p) (archive_usernames w i)) as [Eu|Nu];
        destruct (String.eqb_spec (username_lower p)
                                  (lower (archive_usernames w i))) as [El|Nl];
        try (split; assumption).
      all: exfalso;
        assert (existsb (fun p0 => (username p0 == archive_usernames w i)
                                   || (username_lower p0
                                       == lower (archive_usernames w i)))
                  (filter (fun p0 => negb (username p0 == other))
                          (participants db)) = true) as Y;
        [apply existsb_exists; exists p; split; [exact X|];
         apply orb_true_iff;
         rewrite !String.eqb_eq; tauto
        | rewrite Y in E; discriminate].
    + intros H. aborted_cannot H.
Qed.

(** C5, the code at the failing input.  When the first candidate is the
    handle [y] already bears, the rename breaks no unique constraint
    and is accepted: [y] is archived under a handle that was in use,
    its own, and the row of [absorptions] says so. *)
Theorem C5_archived_under_own_handle :
  exists db',
    take_over Sample.world_own_handle 5 "x" "github" "1" false
              Sample.last_account = (Return tt, db')
    /\ archive_usernames Sample.world_own_handle 0 = "y"
    /\ In "y" (map username (participants Sample.last_account))
    /\ In "y" (map username (participants db'))
    /\ absorptions db' = [mkAbsorption "y" "x" "y"].
Proof.
  eexists. split; [vm_compute; reflexivity|].
  split; [reflexivity|].
  split; [vm_compute; tauto|].
  split; [vm_compute; tauto|].
  vm_compute. reflexivity.
Qed.

(** C6, the code at the failing input.  The rename to the first
    candidate breaks a foreign key, not the uniqueness of the handle.
    The exception does not reach the caller: it is caught like a
    collision, the candidate is passed over and the next rename is
    attempted, which the failed transaction refuses; the call ends with
    [InternalError] instead, and nothing is committed. *)
Theorem C6_foreign_key_violation_is_caught :
  rename_failure Sample.world_foreign_key
                 (archive_usernames Sample.world_foreign_key 0)
  = Some (IntegrityError foreign_key_violation)
  /\ taken (archive_usernames Sample.world_foreign_key 0)
           (participants Sample.last_account) = false
  /\ take_over Sample.world_foreign_key 5 "x" "github" "1" false
               Sample.last_account
     = (Raise (DatabaseError InternalError), Sample.last_account)
  /\ fst (take_over Sample.world_foreign_key 5 "x" "github" "1" false
                    Sample.last_account)
     <> Raise (DatabaseError (IntegrityError foreign_key_violation)).
Proof.
  split; [reflexivity|]. split; [reflexivity|].
  split; [vm_compute; reflexivity|].
  vm_compute. discriminate.
Qed.

(* ================================================================== *)
(** ** The theorems at the sample data *)

Ltac run := vm_compute; reflexivity.

Ltac rows_older :=
  let r := fresh "r" in
  let H := fresh "H" in
  intros r H; simpl in H;
  repeat (destruct H as [<-|H]; [simpl; lia|]); destruct H.

(** C7 at the sample: [y] is claimed and keeps an account, [x] has a
    github account already, and no confirmation is given. *)
Lemma C7_abort_writes_nothing_witness :
  take_over_body Sample.world 5 "x" "github" "1" false Sample.two_accounts
  = (Raise (ExnNeedConfirmation (mkNeedConfirmation true false true)),
     Sample.two_accounts)
  /\ snd (take_over Sample.world 5 "x" "github" "1" false Sample.two_accounts)
     = Sample.two_accounts.
Proof.
  assert (H : take_over_body Sample.world 5 "x" "github" "1" false
                Sample.two_accounts
              = (Raise (ExnNeedConfirmation (mkNeedConfirmation true false true)),
                 Sample.two_accounts)) by run.
  split; [exact H|].
  exact (proj2 (C7_abort_writes_nothing _ _ _ _ _ _ _ _ _ H)).
Defined.

(** C3 at the sample: [a] gives 50 to [x] and, currently, 20 to [y];
    [y] gives 100 to [a] and [x] nothing. *)
Lemma C3_consolidated_rows_witness :
  "x" <> "y" /\ "a" <> "x"
  /\ (exists row,
         filter (fun r => tipper r == "a")
                (select_tips_receiving "x" "x" "y" "x" "y" "x" 100
                                       Sample.pledges) = [row]
         /\ amount row = current_amount Sample.pledges "a" "x"
                         + current_amount Sample.pledges "a" "y")
  /\ (exists row,
         filter (fun r => tippee r == "a")
                (select_tips_giving "x" "x" "y" "x" "y" "x" 100
                                    Sample.pledges) = [row]
         /\ tipper row = "x").
Proof.
  assert (Hxy : "x" <> "y") by discriminate.
  assert (Ha : "a" <> "x") by discriminate.
  destruct (C3_consolidated_rows Sample.pledges "x" "y" 100 "a" Hxy Ha)
    as (Hin & Hout & _).
  split; [exact Hxy|]. split; [exact Ha|]. split.
  - destruct Hin as (row & E & _ & _ & _ & A & _).
    + left. vm_compute. discriminate.
    + exists row. split; [exact E | exact A].
  - destruct Hout as (row & E & T & _).
    + right. vm_compute. discriminate.
    + exists row. split; [exact E | exact T].
Defined.

(** C10 at the sample merge of [y] into [x]. *)
Lemma C10_amounts_stay_nonnegative_witness :
  let db := Sample.last_account in
  let db' := snd (take_over Sample.world 5 "x" "github" "1" false db) in
  (exists ins, tips db' = tips db ++ ins
               /\ forall r, In r ins -> 0 <= amount r)
  /\ forall r, In r (tips db') -> 0 <= amount r.
Proof.
  intros db db'.
  apply (C10_amounts_stay_nonnegative Sample.world 5 "x" "github" "1" false
           db db').
  - run.
  - rows_older.
Defined.


(** C9 at the sample, after the merge of [y] into [x]. *)
Lemma C9_second_call_needs_confirmation_witness :
  let db1 := snd (take_over Sample.world 5 "x" "github" "1" false
                            Sample.last_account) in
  SELECT_connection "github" "1" db1 = Some ("x", false)
  /\ snd (take_over Sample.world 5 "x" "github" "1" false db1) = db1
  /\ fst (take_over Sample.world 5 "x" "github" "1" false db1)
     = Raise (ExnNeedConfirmation
                (mkNeedConfirmation (negb false)
                                    (SELECT_nelsewhere "x" db1 =? 1) true)).
Proof.
  intros db1.
  assert (H : SELECT_connection "github" "1" db1 = Some ("x", false)) by run.
  destruct (C9_second_call_needs_confirmation Sample.world 5 "x" "github" "1"
              db1 false H) as (Hsame & Hneed & _).
  split; [exact H|]. split; [exact Hsame|].
  apply Hneed. run.
Defined.

(* ================================================================== *)
(** ** When the inserts share one stamp *)

(** The statements about the current tips after a merge rest on
    [stamps_advance].  When the four inserts carry the same stamp, the
    row that consolidates the tip from [y] to [x] and the row that
    zeroes it are both the latest of their pair, and which of them is
    current is up to the server. *)
Lemma one_stamp_leaves_a_tie :
  let ts := take_over_tips Sample.world_one_stamp "x" "y" Sample.pledges in
  In (mkTip 5 "y" "x" 30 100) ts
  /\ In (mkTip 5 "y" "x" 0 100) ts
  /\ forall r, In r ts -> mtime r <= 100.
Proof.
  vm_compute. split; [tauto|]. split; [tauto|].
  intros r H. repeat (destruct H as [<-|H]; [discriminate|]). destruct H.
Qed.

(* ================================================================== *)
(** ** [NeedConfirmation] as a value *)

(** X1. [==] on [NeedConfirmation] holds exactly for equal triples,
    the second fact included, and [!=] is its opposite. *)
Theorem X1_eq_is_equality_of_triples n m :
  (nc_eq n m = true <-> n = m) /\ (nc_ne n m = true <-> n <> m).
Proof.
  assert (H : nc_eq n m = true <-> n = m).
  { destruct n as [a b c], m as [a' b' c']. unfold nc_eq. simpl.
    rewrite !andb_true_iff, !Bool.eqb_true_iff. split.
    - intros [[-> ->] ->]. reflexivity.
    - intros E. injection E as -> -> ->. auto. }
  split; [exact H|]. unfold nc_ne. rewrite negb_true_iff. split.
  - intros E1 E2. apply H in E2. congruence.
  - intros N. destruct (nc_eq n m) eqn:E; [|reflexivity].
    destruct N. apply H. reflexivity.
Qed.

(** X2. The printed form tells the three facts: two values print the
    same only when they are equal. *)
Theorem X2_repr_tells_the_facts n m :
  nc_repr n = nc_repr m <-> n = m.
Proof.
  split; [|intros ->; reflexivity].
  destruct n as [[] [] []], m as [[] [] []]; vm_compute;
    intros H; try reflexivity; discriminate H.
Qed.

(* ================================================================== *)
(** ** How a run ends *)

(** The owner the first query finds has a row in [participants]. *)
Lemma SELECT_connection_participant pf uid db o s :
  SELECT_connection pf uid db = Some (o, s) ->
  exists p, In p (participants db) /\ username p = o.
Proof.
  unfold SELECT_connection. intros H. apply hd_error_In, in_flat_map in H.
  destruct H as (e & _ & H). apply in_map_iff in H.
  destruct H as (p & E & Hp). injection E as <- _.
  apply filter_In in Hp. destruct Hp as [Hp Hu].
  apply String.eqb_eq in Hu. eauto.
Qed.

(** When the archive loop raises, either no row bore the handle to
    archive, or the rename failed otherwise than on integrity. *)
Lemma archive_loop_raises w other fuel : forall i db e db',
  archive_loop w other fuel i db = (Raise e, db') ->
  (e = AssertionError
   /\ filter (fun p => username p == other) (participants db) = [])
  \/ exists d, e = DatabaseError d /\ forall v, d <> IntegrityError v.
Proof.
  assert (Hab : forall f j d e db',
    archive_loop_from w other true f j d = (Raise e, db') ->
    exists d0, e = DatabaseError d0 /\ forall v, d0 <> IntegrityError v).
  { intros f j d e db' H. rewrite archive_loop_from_aborted in H.
    destruct f; [discriminate|]. injection H as <- _.
    eexists. split; [reflexivity|congruence]. }
  intros i db e db'. unfold archive_loop.
  destruct fuel as [|fuel]; simpl; [discriminate|].
  unfold UPDATE_participants.
  destruct (rename_failure w (archive_usernames w i)) as [d|].
  - destruct d; try (intros H; right; exact (Hab _ _ _ _ _ H));
      intros H; injection H as <- _; right; eexists; split;
      try reflexivity; congruence.
  - destruct (filter (fun p => username p == other) (participants db))
      as [|q [|q' l]] eqn:F.
    + cbn. intros H. injection H as <- _. left. split; reflexivity.
    + destruct (existsb _ _).
      * intros H. right. exact (Hab _ _ _ _ _ H).
      * cbn. rewrite String.eqb_refl. cbn. discriminate.
    + intros H. right. exact (Hab _ _ _ _ _ H).
Qed.

(** When the archive loop returns, one row bore the handle to archive,
    the accepted candidate collides with no other row, and that row is
    rewritten. *)
Lemma archive_loop_returns w other fuel : forall i db u db',
  archive_loop w other fuel i db = (Return u, db') ->
  (exists q, filter (fun p => username p == other) (participants db) = [q])
  /\ existsb (fun p => (username p == u) || (username_lower p == lower u))
             (filter (fun p => negb (username p == other)) (participants db))
     = false
  /\ (exists j, u = archive_usernames w j)
  /\ db' = set_participants (archived w other u (participants db)) db.
Proof.
  intros i db u db'. unfold archive_loop.
  destruct fuel as [|fuel]; simpl; [discriminate|].
  unfold UPDATE_participants.
  destruct (rename_failure w (archive_usernames w i)) as [d|].
  - destruct d; try discriminate. intros H. aborted_cannot H.
  - destruct (filter (fun p => username p == other) (participants db))
      as [|q [|q' l]] eqn:F.
    + cbn. discriminate.
    + destruct (existsb _ _) eqn:E.
      * intros H. aborted_cannot H.
      * cbn. rewrite String.eqb_refl. cbn. intros H. injection H as <- <-.
        split; [eauto|]. split; [exact E|]. split; [eauto|]. reflexivity.
    + intros H. aborted_cannot H.
Qed.

(** A run of the rest of the body that returns, step by step. *)
Lemma proceed_returns w fuel x pf uid other n db db' :
  proceed w fuel x pf uid other n db = (Return tt, db') ->
  exists db1,
    move_old_account w fuel x pf (we_already_have_that_kind_of_account n) db
    = (Return tt, db1)
    /\ if this_is_others_last_account_elsewhere n
       then exists u db3,
           archive_loop w other fuel 0
             (set_tips (take_over_tips w x other (tips db1))
                       (UPDATE_elsewhere_by_user_id x pf uid db1))
           = (Return u, db3)
           /\ db' = INSERT_absorptions other x u db3
       else db' = UPDATE_elsewhere_by_user_id x pf uid db1.
Proof.
  unfold proceed, bind.
  destruct (move_old_account w fuel x pf _ db) as [[[]|e|] db1];
    try discriminate.
  unfold do_the_deal at 1, execute at 1. intros H. exists db1.
  split; [reflexivity|].
  unfold fold_old_participant in H.
  destruct (this_is_others_last_account_elsewhere n).
  - unfold bind, execute in H. cbv zeta in H.
    change (set_tips _ (set_tips _ (set_tips _ (set_tips _
              (UPDATE_elsewhere_by_user_id x pf uid db1)))))
      with (set_tips (take_over_tips w x other (tips db1))
                     (UPDATE_elsewhere_by_user_id x pf uid db1)) in H.
    destruct (archive_loop w other fuel 0 _) as [[u|e|] db3];
      try discriminate.
    injection H as <-. eauto.
  - injection H as <-. reflexivity.
Qed.

(** Once the owner of the account has a row in [participants], the rest
    of the body raises nothing but a failure of the rename other than
    on integrity. *)
Lemma proceed_raises w fuel x pf uid other n db e db' :
  (exists p, In p (participants db) /\ username p = other) ->
  proceed w fuel x pf uid other n db = (Raise e, db') ->
  exists d, e = DatabaseError d /\ forall v, d <> IntegrityError v.
Proof.
  intros (p & Hp & Hu). unfold proceed, bind.
  pose proof (move_old_account_spec w fuel x pf
                (we_already_have_that_kind_of_account n) db) as Hm.
  destruct (move_old_account w fuel x pf _ db) as [[[]|e1|] db1];
    [|destruct Hm|discriminate].
  assert (Hp1 : In p (participants db1)).
  { destruct Hm as (_ & _ & Hm).
    destruct (we_already_have_that_kind_of_account n).
    - destruct Hm as (u & _ & -> & _). apply in_or_app. auto.
    - rewrite Hm. assumption. }
  unfold do_the_deal at 1, execute at 1. unfold fold_old_participant.
  destruct (this_is_others_last_account_elsewhere n); [|discriminate].
  unfold bind, execute. cbv zeta.
  match goal with
  | |- context [archive_loop w other fuel 0 ?d] =>
      destruct (archive_loop w other fuel 0 d) as [[u|e2|] db3] eqn:L
  end; try discriminate.
  intros H. injection H as <- _.
  apply archive_loop_raises in L. destruct L as [[_ L]|L]; [|exact L].
  exfalso. cbn in L.
  assert (In p (filter (fun q => username q == other) (participants db1))) as X.
  { apply filter_In. split; [assumption|]. apply String.eqb_eq. assumption. }
  rewrite L in X. destruct X.
Qed.

(** X3. [take_over] raises [AssertionError] exactly when the account
    has no owner with a row in [participants], or the participant has
    more than one account on the platform.  The check [nelsewhere > 0]
    and the two checks in the archive loop never fail. *)
Theorem X3_assertions_fail_only_up_front w fuel x pf uid hc db :
  fst (take_over w fuel x pf uid hc db) = Raise AssertionError
  <-> SELECT_connection pf uid db = None
      \/ 2 <= SELECT_nparticipants x pf db.
Proof.
  unfold take_over. rewrite take_over_body_eq. unfold facts.
  destruct (SELECT_connection pf uid db) as [[o s]|] eqn:Hc.
  - destruct (SELECT_connection_owner _ _ _ _ _ Hc) as [Hn _].
    destruct (Z.ltb_spec 0 (SELECT_nelsewhere o db)); [|lia].
    assert (Hm : 0 <= SELECT_nparticipants x pf db)
      by (unfold SELECT_nparticipants; lia).
    cbn [andb]. destruct (in_0_1 (SELECT_nparticipants x pf db)) eqn:I.
    + assert (Hle : ~ 2 <= SELECT_nparticipants x pf db).
      { unfold in_0_1 in I. apply orb_true_iff in I.
        rewrite !Z.eqb_eq in I. lia. }
      destruct (nonzero _ && negb hc).
      * cbn. split; [discriminate|]. intros [?|?]; [discriminate|lia].
      * destruct (proceed w fuel x pf uid o _ db) as [[[]|e1|] d1] eqn:P;
          cbn; (split; [|intros [?|?]; [discriminate|lia]]);
          try discriminate.
        intros E. injection E as ->. apply proceed_raises in P.
        -- destruct P as (d & E & _). discriminate.
        -- apply (SELECT_connection_participant _ _ _ _ _ Hc).
    + cbn. split; [|reflexivity]. intros _. right.
      unfold in_0_1 in I. apply orb_false_iff in I.
      rewrite !Z.eqb_neq in I. lia.
  - cbn. split; auto.
Qed.

(** X4. An account that is not in [elsewhere] makes the call fail with
    [AssertionError], confirmation or not, and nothing is written. *)
Theorem X4_unknown_account_fails w fuel x pf uid hc db :
  (forall e, In e (elsewhere db) -> platform e = pf -> user_id e <> uid) ->
  take_over w fuel x pf uid hc db = (Raise AssertionError, db).
Proof.
  intros H. unfold take_over. rewrite take_over_body_eq. unfold facts.
  replace (SELECT_connection pf uid db) with (@None (string * bool));
    [reflexivity|].
  unfold SELECT_connection.
  replace (filter (fun e => (platform e == pf) && (user_id e == uid))
                  (elsewhere db)) with (@nil elsewhere_row); [reflexivity|].
  symmetry. apply filter_nil_iff. intros e He.
  destruct (String.eqb_spec (platform e) pf) as [Ep|]; [|reflexivity].
  apply String.eqb_neq. auto.
Qed.

(** X5. Confirmation matters only when it is asked for: a call that
    ends otherwise than with [NeedConfirmation] ends the same way, with
    the same database, when confirmation is given. *)
Theorem X5_confirmation_changes_nothing_else w fuel x pf uid db r db' :
  take_over w fuel x pf uid false db = (r, db') ->
  (forall n, r <> Raise (ExnNeedConfirmation n)) ->
  take_over w fuel x pf uid true db = (r, db').
Proof.
  unfold take_over. rewrite !take_over_body_eq.
  destruct (facts x pf uid db) as [[other n]|]; [|auto].
  rewrite andb_false_r, andb_true_r.
  destruct (nonzero n); [|auto].
  intros H N. injection H as <- _. destruct (N n eq_refl).
Qed.

(* ================================================================== *)
(** ** The accounts elsewhere after a call *)

(** A call that returns, step by step. *)
Lemma take_over_steps w fuel x pf uid hc db db' :
  take_over w fuel x pf uid hc db = (Return tt, db') ->
  exists other n db1,
    facts x pf uid db = Some (other, n)
    /\ move_old_account w fuel x pf (we_already_have_that_kind_of_account n) db
       = (Return tt, db1)
    /\ if this_is_others_last_account_elsewhere n
       then exists u db3,
           archive_loop w other fuel 0
             (set_tips (take_over_tips w x other (tips db1))
                       (UPDATE_elsewhere_by_user_id x pf uid db1))
           = (Return u, db3)
           /\ db' = INSERT_absorptions other x u db3
       else db' = UPDATE_elsewhere_by_user_id x pf uid db1.
Proof.
  intros H. apply take_over_returns in H.
  destruct H as (other & n & Hf & _ & Hp).
  apply proceed_returns in Hp. destruct Hp as (db1 & Hm & Hrest).
  exists other, n, db1. auto.
Qed.

Lemma take_over_elsewhere w fuel x pf uid hc db db' :
  take_over w fuel x pf uid hc db = (Return tt, db') ->
  exists other n db1,
    facts x pf uid db = Some (other, n)
    /\ move_old_account w fuel x pf (we_already_have_that_kind_of_account n) db
       = (Return tt, db1)
    /\ elsewhere db' = elsewhere (UPDATE_elsewhere_by_user_id x pf uid db1).
Proof.
  intros H. apply take_over_steps in H.
  destruct H as (other & n & db1 & Hf & Hm & Hrest).
  exists other, n, db1. split; [exact Hf|]. split; [exact Hm|].
  destruct (this_is_others_last_account_elsewhere n).
  - destruct Hrest as (u & db3 & L & ->).
    apply archive_loop_returns in L. destruct L as (_ & _ & _ & ->).
    reflexivity.
  - rewrite Hrest. reflexivity.
Qed.

Lemma UPDATE_by_participant_keys u pf x db :
  map elsewhere_key (elsewhere (UPDATE_elsewhere_by_participant u pf x db))
  = map elsewhere_key (elsewhere db).
Proof.
  unfold UPDATE_elsewhere_by_participant. simpl. rewrite map_map.
  apply map_ext. intros e. destruct (_ && _); reflexivity.
Qed.

Lemma UPDATE_by_user_id_keys x pf uid db :
  map elsewhere_key (elsewhere (UPDATE_elsewhere_by_user_id x pf uid db))
  = map elsewhere_key (elsewhere db).
Proof.
  unfold UPDATE_elsewhere_by_user_id. simpl. rewrite map_map.
  apply map_ext. intros e. destruct (_ && _); reflexivity.
Qed.

(** X6. A call that returns neither adds nor drops an account
    elsewhere: the accounts, by platform and user id, are the same, in
    the same order; only owners change. *)
Theorem X6_accounts_are_kept w fuel x pf uid hc db db' :
  take_over w fuel x pf uid hc db = (Return tt, db') ->
  map elsewhere_key (elsewhere db') = map elsewhere_key (elsewhere db).
Proof.
  intros H. apply take_over_elsewhere in H.
  destruct H as (other & n & db1 & _ & Hm & ->).
  rewrite UPDATE_by_user_id_keys.
  pose proof (move_old_account_spec w fuel x pf
                (we_already_have_that_kind_of_account n) db) as S.
  rewrite Hm in S. destruct S as (_ & _ & S).
  destruct (we_already_have_that_kind_of_account n).
  - destruct S as (u & _ & _ & ->). apply UPDATE_by_participant_keys.
  - rewrite S. reflexivity.
Qed.

(** X7. After a call that returns, merge or not, the account belongs to
    the participant. *)
Theorem X7_account_is_taken_over w fuel x pf uid hc db db' :
  take_over w fuel x pf uid hc db = (Return tt, db') ->
  forall e, In e (elsewhere db') ->
            platform e = pf -> user_id e = uid -> participant e = x.
Proof.
  intros H. apply take_over_elsewhere in H.
  destruct H as (other & n & db1 & _ & _ & E). rewrite E.
  apply UPDATE_elsewhere_by_user_id_owner.
Qed.

(** The owner the first query finds owns the account asked for. *)
Lemma SELECT_connection_row pf uid db o s :
  SELECT_connection pf uid db = Some (o, s) ->
  exists e, In e (elsewhere db)
            /\ platform e = pf /\ user_id e = uid /\ participant e = o.
Proof.
  unfold SELECT_connection. intros H. apply hd_error_In, in_flat_map in H.
  destruct H as (e & He & H). apply in_map_iff in H.
  destruct H as (p & E & _). injection E as <- _.
  apply filter_In in He. destruct He as [He Hc].
  apply andb_true_iff in Hc. rewrite !String.eqb_eq in Hc.
  exists e. tauto.
Qed.

Lemma taken_false u ps p :
  taken u ps = false -> In p ps -> username p <> u.
Proof.
  unfold taken. intros H Hp E.
  assert (existsb (fun p => (username p == u) || (username_lower p == lower u))
                  ps = true) as X.
  { apply existsb_exists. exists p. split; [assumption|].
    rewrite E, String.eqb_refl. reflexivity. }
  congruence.
Qed.

(** X8. After a merge into another participant, the absorbed
    participant owns no account elsewhere any more. *)
Theorem X8_absorbed_owns_nothing w fuel x pf uid hc db db' other n :
  take_over w fuel x pf uid hc db = (Return tt, db') ->
  facts x pf uid db = Some (other, n) ->
  this_is_others_last_account_elsewhere n = true ->
  x <> other ->
  SELECT_nelsewhere other db' = 0.
Proof.
  intros Hrun Hfacts HB Hxo.
  apply take_over_elsewhere in Hrun.
  destruct Hrun as (o & m & db1 & Hf & Hm & E).
  rewrite Hfacts in Hf. injection Hf as <- <-.
  unfold facts in Hfacts.
  destruct (SELECT_connection pf uid db) as [[o s]|] eqn:Hc; [|discriminate].
  destruct (_ && _); [|discriminate]. injection Hfacts as -> Hn.
  rewrite <- Hn in HB. cbn in HB. apply Z.eqb_eq in HB.
  destruct (SELECT_connection_row _ _ _ _ _ Hc) as (e0 & He0 & Hp0 & Hu0 & Ho0).
  destruct (SELECT_connection_participant _ _ _ _ _ Hc) as (p & Hp & Hpu).
  (* the one account of [other] is the account asked for *)
  assert (Hone : forall e, In e (elsewhere db) -> participant e = other ->
                           platform e = pf /\ user_id e = uid).
  { intros e He Ho. unfold SELECT_nelsewhere in HB.
    assert (In e (filter (fun e => participant e == other) (elsewhere db)))
      as X by (apply filter_In; split; [assumption|apply String.eqb_eq; assumption]).
    assert (In e0 (filter (fun e => participant e == other) (elsewhere db)))
      as X0 by (apply filter_In; split; [assumption|apply String.eqb_eq; assumption]).
    destruct (filter (fun e => participant e == other) (elsewhere db))
      as [|a [|b l]]; simpl in HB; try lia.
    destruct X as [<-|[]], X0 as [<-|[]]. auto. }
  (* the same holds once an old account is moved out of the way *)
  assert (Hone1 : forall e, In e (elsewhere db1) -> participant e = other ->
                            platform e = pf /\ user_id e = uid).
  { pose proof (move_old_account_spec w fuel x pf
                  (we_already_have_that_kind_of_account n) db) as S.
    rewrite Hm in S. destruct S as (_ & _ & S).
    destruct (we_already_have_that_kind_of_account n).
    - destruct S as (u & Hfree & _ & ->). intros e He Ho.
      unfold UPDATE_elsewhere_by_participant in He. simpl in He.
      apply in_map_iff in He. destruct He as (e1 & E1 & He1).
      destruct ((platform e1 == pf) && (participant e1 == x)).
      + subst e. simpl in Ho. exfalso.
        apply (taken_false u _ p Hfree Hp). congruence.
      + subst e1. auto.
    - rewrite S. exact Hone. }
  unfold SELECT_nelsewhere. rewrite E.
  replace (filter (fun e => participant e == other)
                  (elsewhere (UPDATE_elsewhere_by_user_id x pf uid db1)))
    with (@nil elsewhere_row); [reflexivity|].
  symmetry. apply filter_nil_iff. intros e He.
  apply String.eqb_neq. intros Ho.
  unfold UPDATE_elsewhere_by_user_id in He. simpl in He.
  apply in_map_iff in He. destruct He as (e1 & E1 & He1).
  destruct ((platform e1 == pf) && (user_id e1 == uid)) eqn:C.
  - subst e. simpl in Ho. congruence.
  - subst e1. destruct (Hone1 e He1 Ho) as [Hp1 Hu1].
    rewrite Hp1, Hu1, !String.eqb_refl in C. discriminate.
Qed.

(* ================================================================== *)
(** ** The participants after a call *)


Lemma taken_false_lower u ps p :
  taken u ps = false -> In p ps -> username_lower p <> lower u.
Proof.
  unfold taken. intros H Hp E.
  assert (existsb (fun p => (username p == u) || (username_lower p == lower u))
                  ps = true) as X.
  { apply existsb_exists. exists p. split; [assumption|].
    rewrite E, String.eqb_refl, orb_true_r. reflexivity. }
  congruence.
Qed.

Lemma NoDup_snoc {A} (l : list A) a :
  NoDup l -> ~ In a l -> NoDup (l ++ [a]).
Proof.
  intros Hl Ha. induction Hl as [|b l Hb Hl IH]; simpl.
  - constructor; [tauto|constructor].
  - constructor.
    + intros H. apply in_app_or in H. destruct H as [H|[<-|[]]];
        [contradiction|]. apply Ha. left. reflexivity.
    + apply IH. intros H. apply Ha. right. assumption.
Qed.

(** Rewriting the one selected row to a value of the column that no
    other row has keeps the column free of repetitions. *)
Lemma rewrite_one_NoDup (col : participant_row -> string)
      (g : participant_row -> participant_row) v other ps :
  (forall p, col (g p) = v) ->
  (exists q, filter (fun p => username p == other) ps = [q]) ->
  (forall p, In p ps -> username p <> other -> col p <> v) ->
  NoDup (map col ps) ->
  NoDup (map col (map (fun p => if username p == other then g p else p) ps)).
Proof.
  intros Hg. set (f := fun p => if username p == other then g p else p).
  assert (Hid : forall l,
    filter (fun p => username p == other) l = [] -> map f l = l).
  { induction l as [|p l IH]; simpl; [reflexivity|]. unfold f at 1.
    destruct (username p == other); [discriminate|].
    intros H. rewrite IH by assumption. reflexivity. }
  induction ps as [|p ps IH]; intros [q Hq] Hv Hnd; simpl in *.
  - discriminate.
  - inversion Hnd as [|? ? Hnot Hrest]; subst.
    unfold f at 1. destruct (String.eqb_spec (username p) other) as [E|N].
    + injection Hq as _ Hq. rewrite (Hid ps Hq), Hg. constructor; [|assumption].
      intros H. apply in_map_iff in H. destruct H as (p' & Ev & Hp').
      apply (Hv p' (or_intror Hp')); [|assumption].
      intros Eo.
      assert (In p' (filter (fun p => username p == other) ps)) as X
        by (apply filter_In; split; [assumption|apply String.eqb_eq; assumption]).
      rewrite Hq in X. destruct X.
    + constructor.
      * intros H. rewrite map_map in H. apply in_map_iff in H.
        destruct H as (p' & Ev & Hp'). unfold f in Ev.
        destruct (username p' == other).
        -- rewrite Hg in Ev. apply (Hv p (or_introl eq_refl) N). congruence.
        -- apply Hnot. rewrite <- Ev. apply in_map. assumption.
      * apply IH; eauto.
Qed.

(** X10. Handles stay unique: when no two rows of [participants] share
    a [username] and no two a [username_lower] before the call, the
    same holds after a call that returns, stub and archived row
    included. *)
Theorem X10_handles_stay_unique w fuel x pf uid hc db db' :
  take_over w fuel x pf uid hc db = (Return tt, db') ->
  NoDup (map username (participants db)) ->
  NoDup (map username_lower (participants db)) ->
  NoDup (map username (participants db'))
  /\ NoDup (map username_lower (participants db')).
Proof.
  intros Hrun Hu Hl. apply take_over_steps in Hrun.
  destruct Hrun as (other & n & db1 & _ & Hm & Hrest).
  assert (H1 : NoDup (map username (participants db1))
               /\ NoDup (map username_lower (participants db1))).
  { pose proof (move_old_account_spec w fuel x pf
                  (we_already_have_that_kind_of_account n) db) as S.
    rewrite Hm in S. destruct S as (_ & _ & S).
    destruct (we_already_have_that_kind_of_account n).
    - destruct S as (s & Hfree & -> & _). rewrite !map_app. simpl. split.
      + apply NoDup_snoc; [assumption|]. intros H. apply in_map_iff in H.
        destruct H as (p & E & Hp). exact (taken_false s _ p Hfree Hp E).
      + apply NoDup_snoc; [assumption|]. intros H. apply in_map_iff in H.
        destruct H as (p & E & Hp). exact (taken_false_lower s _ p Hfree Hp E).
    - rewrite S. auto. }
  destruct H1 as [Hu1 Hl1].
  destruct (this_is_others_last_account_elsewhere n).
  - destruct Hrest as (u & db3 & L & ->).
    pose proof (archive_loop_accepts _ _ _ _ _ _ _ L) as Hacc.
    apply archive_loop_returns in L. destruct L as (Hq & _ & _ & ->).
    cbn in Hq, Hacc |- *. unfold archived. split.
    + apply rewrite_one_NoDup with (v := u); auto.
      intros p Hp N. apply (Hacc p Hp N).
    + apply rewrite_one_NoDup with (v := lower u); auto.
      intros p Hp N. apply (Hacc p Hp N).
  - rewrite Hrest. cbn. auto.
Qed.

(* ================================================================== *)
(** ** What the statements on [tips] leave alone *)

(** X11. A call never touches the tips between third parties: for [a]
    and [b] both other than the participant and the absorbed one, the
    rows from [a] to [b] are the same after a call that returns. *)
Theorem X11_third_party_tips_untouched w fuel x pf uid hc db db' other n a b :
  take_over w fuel x pf uid hc db = (Return tt, db') ->
  facts x pf uid db = Some (other, n) ->
  a <> x -> a <> other -> b <> x -> b <> other ->
  filter (same_pair a b) (tips db') = filter (same_pair a b) (tips db).
Proof.
  intros Hrun Hfacts Hax Hao Hbx Hbo.
  destruct (take_over_returns _ _ _ _ _ _ _ _ Hrun) as (o & m & Hf & _ & Hp).
  rewrite Hfacts in Hf. injection Hf as <- <-.
  rewrite (proceed_tips _ _ _ _ _ _ _ _ _ Hp).
  destruct (this_is_others_last_account_elsewhere n); [|reflexivity].
  unfold take_over_tips, tips_zeroed_to, tips_consolidated,
    tips_consolidated_to, ZERO_OUT_OLD_TIPS_GIVING,
    ZERO_OUT_OLD_TIPS_RECEIVING, CONSOLIDATE_TIPS_GIVING,
    CONSOLIDATE_TIPS_RECEIVING.
  rewrite !filter_app.
  rewrite zero_giving_pair_none, zero_receiving_pair_none,
    giving_pair_none, receiving_pair_none by auto.
  rewrite !app_nil_r. reflexivity.
Qed.

(** The rows a zeroing statement inserts copy tipper, tippee and
    [ctime] from a row of the table. *)
Lemma zero_receiving_origin y stamp ts r :
  In r (select_zero_receiving y stamp ts) ->
  exists r0, In r0 ts /\ tipper r0 = tipper r /\ tippee r0 = tippee r
             /\ ctime r0 = ctime r.
Proof.
  unfold select_zero_receiving. intros H. apply in_map_iff in H.
  destruct H as (r0 & <- & H0). apply distinct_on_In, filter_In in H0.
  exists r0. simpl. tauto.
Qed.

Lemma zero_giving_origin y stamp ts r :
  In r (select_zero_giving y stamp ts) ->
  exists r0, In r0 ts /\ tipper r0 = tipper r /\ tippee r0 = tippee r
             /\ ctime r0 = ctime r.
Proof.
  unfold select_zero_giving. intros H. apply in_map_iff in H.
  destruct H as (r0 & <- & H0). apply distinct_on_In, filter_In in H0.
  exists r0. simpl. tauto.
Qed.

(** X12. No tip to oneself comes out of a call: when no row of [tips]
    has the same tipper and tippee before, none has after a call that
    returns. *)
Theorem X12_no_self_tip_is_made w fuel x pf uid hc db db' :
  take_over w fuel x pf uid hc db = (Return tt, db') ->
  (forall r, In r (tips db) -> tipper r <> tippee r) ->
  forall r, In r (tips db') -> tipper r <> tippee r.
Proof.
  intros Hrun H0.
  destruct (take_over_returns _ _ _ _ _ _ _ _ Hrun) as (o & m & _ & _ & Hp).
  rewrite (proceed_tips _ _ _ _ _ _ _ _ _ Hp).
  destruct (this_is_others_last_account_elsewhere m); [|exact H0].
  assert (H1 : forall r, In r (tips_consolidated_to w x o (tips db)) ->
                         tipper r <> tippee r).
  { intros r Hr. apply in_app_or in Hr. destruct Hr as [Hr|Hr]; [auto|].
    apply receiving_rows in Hr. destruct Hr as (-> & N & _). exact N. }
  assert (H2 : forall r, In r (tips_consolidated w x o (tips db)) ->
                         tipper r <> tippee r).
  { intros r Hr. apply in_app_or in Hr. destruct Hr as [Hr|Hr]; [auto|].
    apply giving_rows in Hr. destruct Hr as (-> & N & _). congruence. }
  assert (H3 : forall r, In r (tips_zeroed_to w x o (tips db)) ->
                         tipper r <> tippee r).
  { intros r Hr. apply in_app_or in Hr. destruct Hr as [Hr|Hr]; [auto|].
    apply zero_receiving_origin in Hr. destruct Hr as (r0 & Hr0 & <- & <- & _).
    auto. }
  intros r Hr. apply in_app_or in Hr. destruct Hr as [Hr|Hr]; [auto|].
  apply zero_giving_origin in Hr. destruct Hr as (r0 & Hr0 & <- & <- & _).
  auto.
Qed.

(* ================================================================== *)
(** ** Nothing more is inserted *)

Lemma group_by_keys key key' mk rows :
  (forall k g, key' (mk k g) = k) ->
  map key' (group_by key mk rows) = nodup string_dec (map key rows).
Proof.
  intros Hmk. unfold group_by. rewrite map_map.
  rewrite (map_ext _ (fun k => k)) by (intros k; apply Hmk).
  apply map_id.
Qed.

(** X13. The consolidating statements insert nothing else: every row of
    the receiving statement is for a tipper other than [x] with a
    current tip to [x] or [y], every row of the giving statement is for
    a tippee other than [x] of a current tip from [x] or [y], and no
    tipper, respectively tippee, gets two rows.  With no current tip to
    carry over, nothing is inserted. *)
Theorem X13_only_current_tips_are_consolidated ts x y stamp :
  (forall r, In r (select_tips_receiving x x y x y x stamp ts) ->
     tipper r <> x /\ tippee r = x
     /\ (latest ts (tipper r) x <> None \/ latest ts (tipper r) y <> None))
  /\ NoDup (map tipper (select_tips_receiving x x y x y x stamp ts))
  /\ (forall r, In r (select_tips_giving x x y x y x stamp ts) ->
        tipper r = x /\ tippee r <> x
        /\ (latest ts x (tippee r) <> None \/ latest ts y (tippee r) <> None))
  /\ NoDup (map tippee (select_tips_giving x x y x y x stamp ts)).
Proof.
  split; [|split; [|split]].
  - intros r Hr. pose proof (receiving_rows _ _ _ _ _ Hr) as (Ht & Hn & _).
    split; [exact Hn|]. split; [exact Ht|].
    unfold select_tips_receiving in Hr. apply group_by_In in Hr.
    destruct Hr as (k & -> & Hk). simpl.
    apply existsb_exists in Hk. destruct Hk as (r0 & Hr0 & E).
    apply String.eqb_eq in E. subst k. apply filter_In in Hr0.
    destruct Hr0 as [Hu W]. apply unique_tips_In in Hu.
    apply andb_true_iff in W. destruct W as [W _].
    apply andb_true_iff in W. destruct W as [W _].
    apply orb_true_iff in W. rewrite !String.eqb_eq in W.
    destruct W as [W|W]; rewrite W in Hu; [left|right]; congruence.
  - unfold select_tips_receiving.
    rewrite (group_by_keys tipper tipper) by reflexivity. apply NoDup_nodup.
  - intros r Hr. pose proof (giving_rows _ _ _ _ _ Hr) as (Ht & Hn & _).
    split; [exact Ht|]. split; [exact Hn|].
    unfold select_tips_giving in Hr. apply group_by_In in Hr.
    destruct Hr as (k & -> & Hk). simpl.
    apply existsb_exists in Hk. destruct Hk as (r0 & Hr0 & E).
    apply String.eqb_eq in E. subst k. apply filter_In in Hr0.
    destruct Hr0 as [Hu W]. apply unique_tips_In in Hu.
    apply andb_true_iff in W. destruct W as [W _].
    apply andb_true_iff in W. destruct W as [W _].
    apply orb_true_iff in W. rewrite !String.eqb_eq in W.
    destruct W as [W|W]; rewrite W in Hu; [left|right]; congruence.
  - unfold select_tips_giving.
    rewrite (group_by_keys tippee tippee) by reflexivity. apply NoDup_nodup.
Qed.

Lemma distinct_on_keys key rows :
  map key (distinct_on key rows) = nodup string_dec (map key rows).
Proof.
  unfold distinct_on.
  assert (H : forall l,
    (forall k, In k l -> exists r, In r rows /\ key r = k) ->
    map key (flat_map (fun k => opt_list (find (fun r => key r == k) rows)) l)
    = l).
  { induction l as [|k l IH]; intros Hl; [reflexivity|].
    cbn [flat_map]. rewrite map_app, IH by (intros; apply Hl; right; assumption).
    destruct (Hl k (or_introl eq_refl)) as (r & Hr & Hk).
    destruct (find (fun r => key r == k) rows) as [r'|] eqn:F.
    - apply find_some in F. destruct F as [_ F]. apply String.eqb_eq in F.
      simpl. rewrite F. reflexivity.
    - exfalso. pose proof (find_none _ _ F r Hr) as N. cbv beta in N.
      rewrite Hk, String.eqb_refl in N. discriminate. }
  apply H. intros k Hk. apply nodup_In, in_map_iff in Hk.
  destruct Hk as (r & E & Hr). eauto.
Qed.

(** X14. The zeroing statements insert one row of amount [0] for each
    counterparty that has any row with [y], current or not, and only
    for those: each row copies tipper, tippee and [ctime] of a row of
    the table with [y] on its side, no counterparty gets two rows, and
    every counterparty with a row gets one. *)
Theorem X14_one_zero_row_per_counterparty ts y stamp :
  (forall r, In r (select_zero_receiving y stamp ts) ->
     amount r = 0 /\ mtime r = stamp /\ tippee r = y
     /\ exists r0, In r0 ts /\ tipper r0 = tipper r /\ tippee r0 = y
                   /\ ctime r0 = ctime r)
  /\ NoDup (map tipper (select_zero_receiving y stamp ts))
  /\ (forall r0, In r0 ts -> tippee r0 = y ->
        exists r, In r (select_zero_receiving y stamp ts)
                  /\ tipper r = tipper r0)
  /\ (forall r, In r (select_zero_giving y stamp ts) ->
        amount r = 0 /\ mtime r = stamp /\ tipper r = y
        /\ exists r0, In r0 ts /\ tipper r0 = y /\ tippee r0 = tippee r
                      /\ ctime r0 = ctime r)
  /\ NoDup (map tippee (select_zero_giving y stamp ts))
  /\ (forall r0, In r0 ts -> tipper r0 = y ->
        exists r, In r (select_zero_giving y stamp ts)
                  /\ tippee r = tippee r0).
Proof.
  repeat split.
  - apply zero_receiving_rows in H. tauto.
  - apply zero_receiving_rows in H. tauto.
  - apply zero_receiving_rows in H. tauto.
  - pose proof (zero_receiving_rows _ _ _ _ H) as (Hy & _).
    apply zero_receiving_origin in H. destruct H as (r0 & ? & ? & ? & ?).
    exists r0. repeat split; congruence.
  - unfold select_zero_receiving. rewrite map_map. simpl.
    change (map (fun r => tipper r)) with (map tipper).
    rewrite distinct_on_keys. apply NoDup_nodup.
  - intros r0 H0 Hy.
    destruct (distinct_on_covers tipper (filter (fun r => tippee r == y) ts) r0)
      as (r & Hr & Hk).
    { apply filter_In. split; [assumption|]. apply String.eqb_eq. assumption. }
    exists (zeroed stamp r). split; [|exact Hk].
    unfold select_zero_receiving. apply in_map. assumption.
  - apply zero_giving_rows in H. tauto.
  - apply zero_giving_rows in H. tauto.
  - apply zero_giving_rows in H. tauto.
  - pose proof (zero_giving_rows _ _ _ _ H) as (Hy & _).
    apply zero_giving_origin in H. destruct H as (r0 & ? & ? & ? & ?).
    exists r0. repeat split; congruence.
  - unfold select_zero_giving. rewrite map_map. simpl.
    change (map (fun r => tippee r)) with (map tippee).
    rewrite distinct_on_keys. apply NoDup_nodup.
  - intros r0 H0 Hy.
    destruct (distinct_on_covers tippee (filter (fun r => tipper r == y) ts) r0)
      as (r & Hr & Hk).
    { apply filter_In. split; [assumption|]. apply String.eqb_eq. assumption. }
    exists (zeroed stamp r). split; [|exact Hk].
    unfold select_zero_giving. apply in_map. assumption.
Qed.

(* ================================================================== *)
(** ** A collision in the archive loop *)


(** X16. A failure of the rename of another class than [IntegrityError]
    ends the call with that failure, and none of what the call had
    written by then, the account moved and the tips inserted, is
    kept. *)
Theorem X16_other_failures_are_fatal w fuel x pf uid hc db other n e :
  facts x pf uid db = Some (other, n) ->
  nonzero n && negb hc = false ->
  this_is_others_last_account_elsewhere n = true ->
  (we_already_have_that_kind_of_account n = false
   \/ exists i, (i < fuel)%nat
                /\ taken (stub_usernames w i) (participants db) = false) ->
  (0 < fuel)%nat ->
  rename_failure w (archive_usernames w 0) = Some e ->
  (forall v, e <> IntegrityError v) ->
  take_over w fuel x pf uid hc db = (Raise (DatabaseError e), db).
Proof.
  intros Hfacts Hconf HB Hmove Hfuel Hfail Hclass.
  unfold take_over. rewrite take_over_body_eq, Hfacts, Hconf.
  unfold proceed, bind.
  assert (exists db1, move_old_account w fuel x pf
            (we_already_have_that_kind_of_account n) db = (Return tt, db1))
    as [db1 ->].
  { unfold move_old_account.
    destruct (we_already_have_that_kind_of_account n).
    - destruct Hmove as [?|(i & Hi & Hfree)]; [discriminate|].
      destruct (reserve_a_random_username_returns (stub_usernames w) fuel 0 db)
        as (u & d & E).
      { exists i. split; [lia|assumption]. }
      unfold bind, execute. rewrite E. eauto.
    - unfold ret. eauto. }
  unfold do_the_deal at 1, execute at 1. unfold fold_old_participant.
  rewrite HB. unfold bind, execute. cbv zeta.
  destruct fuel as [|f]; [lia|].
  rewrite (archive_loop_other_error w other f 0 _ e Hfail Hclass).
  reflexivity.
Qed.

(* ================================================================== *)
(** ** The further theorems at the sample data *)

Ltac rows_differ :=
  let r := fresh "r" in
  let H := fresh "H" in
  intros r H; simpl in H;
  repeat (destruct H as [<-|H]; [simpl; discriminate|]); destruct H.

Ltac no_repetition :=
  simpl; repeat (constructor; [simpl; intuition discriminate|]); constructor.

(** X4 at the sample: nobody has the github account 9. *)
Lemma X4_unknown_account_fails_witness :
  take_over Sample.world 5 "x" "github" "9" true Sample.last_account
  = (Raise AssertionError, Sample.last_account).
Proof.
  apply X4_unknown_account_fails.
  intros e H _. simpl in H. destruct H as [<-|[]]. simpl. discriminate.
Defined.

(** X5 at the sample merge, which needs no confirmation. *)
Lemma X5_confirmation_changes_nothing_else_witness :
  take_over Sample.world 5 "x" "github" "1" true Sample.last_account
  = (Return tt,
     snd (take_over Sample.world 5 "x" "github" "1" false Sample.last_account)).
Proof.
  apply X5_confirmation_changes_nothing_else.
  - run.
  - discriminate.
Defined.

(** X6 at the sample move with confirmation. *)
Lemma X6_accounts_are_kept_witness :
  let db := Sample.two_accounts in
  let db' := snd (take_over Sample.world 5 "x" "github" "1" true db) in
  map elsewhere_key (elsewhere db') = map elsewhere_key (elsewhere db).
Proof.
  intros db db'.
  apply (X6_accounts_are_kept Sample.world 5 "x" "github" "1" true db db').
  run.
Defined.

(** X7 at the sample merge. *)
Lemma X7_account_is_taken_over_witness :
  let db := Sample.last_account in
  let db' := snd (take_over Sample.world 5 "x" "github" "1" false db) in
  take_over Sample.world 5 "x" "github" "1" false db = (Return tt, db')
  /\ forall e, In e (elsewhere db') ->
               platform e = "github" -> user_id e = "1" -> participant e = "x".
Proof.
  intros db db'.
  assert (H : take_over Sample.world 5 "x" "github" "1" false db
              = (Return tt, db')) by run.
  split; [exact H|].
  exact (X7_account_is_taken_over Sample.world 5 "x" "github" "1" false
           db db' H).
Defined.

(** X8 at the sample merge. *)
Lemma X8_absorbed_owns_nothing_witness :
  let db := Sample.last_account in
  let db' := snd (take_over Sample.world 5 "x" "github" "1" false db) in
  SELECT_nelsewhere "y" db' = 0.
Proof.
  intros db db'.
  apply (X8_absorbed_owns_nothing Sample.world 5 "x" "github" "1" false
           db db' "y" (mkNeedConfirmation false true false)).
  - run.
  - run.
  - reflexivity.
  - discriminate.
Defined.


(** X10 at the sample merge. *)
Lemma X10_handles_stay_unique_witness :
  let db := Sample.last_account in
  let db' := snd (take_over Sample.world 5 "x" "github" "1" false db) in
  NoDup (map username (participants db'))
  /\ NoDup (map username_lower (participants db')).
Proof.
  intros db db'.
  apply (X10_handles_stay_unique Sample.world 5 "x" "github" "1" false db db').
  - run.
  - no_repetition.
  - no_repetition.
Defined.

(** X11 at the sample merge, for two third parties. *)
Lemma X11_third_party_tips_untouched_witness :
  let db := Sample.last_account in
  let db' := snd (take_over Sample.world 5 "x" "github" "1" false db) in
  filter (same_pair "a" "b") (tips db') = filter (same_pair "a" "b") (tips db).
Proof.
  intros db db'.
  apply (X11_third_party_tips_untouched Sample.world 5 "x" "github" "1" false
           db db' "y" (mkNeedConfirmation false true false)).
  - run.
  - run.
  - discriminate.
  - discriminate.
  - discriminate.
  - discriminate.
Defined.

(** X12 at the sample merge. *)
Lemma X12_no_self_tip_is_made_witness :
  let db := Sample.last_account in
  let db' := snd (take_over Sample.world 5 "x" "github" "1" false db) in
  take_over Sample.world 5 "x" "github" "1" false db = (Return tt, db')
  /\ forall r, In r (tips db') -> tipper r <> tippee r.
Proof.
  intros db db'.
  assert (H : take_over Sample.world 5 "x" "github" "1" false db
              = (Return tt, db')) by run.
  split; [exact H|].
  apply (X12_no_self_tip_is_made Sample.world 5 "x" "github" "1" false
           db db' H).
  rows_differ.
Defined.


(** X16 at the sample: the connection is lost at the first rename. *)
Lemma X16_other_failures_are_fatal_witness :
  take_over Sample.world_connection_lost 5 "x" "github" "1" false
            Sample.last_account
  = (Raise (DatabaseError OperationalError), Sample.last_account).
Proof.
  apply (X16_other_failures_are_fatal Sample.world_connection_lost 5
           "x" "github" "1" false Sample.last_account
           "y" (mkNeedConfirmation false true false) OperationalError).
  - run.
  - reflexivity.
  - reflexivity.
  - left. reflexivity.
  - lia.
  - reflexivity.
  - discriminate.
Defined.

(* ================================================================== *)
(** ** What holds of the tips whatever the stamps of the inserts *)

(** [latest_insert], asking only the rows of the pair to be older. *)
Lemma latest_insert_pair ts ins a b t :
  (forall r, In r ts -> tipper r = a -> tippee r = b -> mtime r < t) ->
  (forall r, In r ins -> mtime r = t) ->
  match filter (same_pair a b) ins with
  | [] => latest (ts ++ ins) a b = latest ts a b
  | _ :: _ => exists r, latest (ts ++ ins) a b = Some r
                        /\ In r ins /\ tipper r = a /\ tippee r = b
  end.
Proof.
  intros Hts Hins. unfold latest. rewrite filter_app.
  destruct (filter (same_pair a b) ins) as [|i l] eqn:E.
  - rewrite app_nil_r. reflexivity.
  - destruct (newest (i :: l)) as [r|] eqn:N;
      [|apply newest_nil in N; discriminate].
    pose proof (newest_in _ _ N) as Hr. rewrite <- E in Hr.
    apply filter_In in Hr. destruct Hr as [Hr Hp].
    apply same_pair_true in Hp. exists r. repeat split; try tauto.
    apply newest_app_later; [exact N|].
    intros r0 H0. apply filter_In in H0. destruct H0 as [H0 P0].
    apply same_pair_true in P0. rewrite (Hins r Hr).
    apply Hts; tauto.
Qed.

(** A row of a pair in a table with rows appended is a row of the
    table when the appended rows have none of the pair. *)
Lemma pair_row_app ts ins a b r :
  filter (same_pair a b) ins = [] ->
  In r (ts ++ ins) -> tipper r = a -> tippee r = b -> In r ts.
Proof.
  intros E H Ha Hb. apply in_app_or in H. destruct H as [H|H]; [exact H|].
  exfalso.
  assert (In r (filter (same_pair a b) ins)) as X
    by (apply filter_In; split; [assumption|apply same_pair_true; auto]).
  rewrite E in X. destruct X.
Qed.

Section AnyStamps.

Variables (w : env) (x y : string) (ts : list tip).
Hypothesis Hlater : inserts_later w ts.
Hypothesis Hxy : x <> y.

Lemma later0 : forall r, In r ts -> mtime r < mtime_default w 0.
Proof. intros r H. apply Hlater; [assumption|lia]. Qed.

(** The rows of a pair without [x] as tippee are still those of the
    table after the receiving statement. *)
Lemma pair_rows_consolidated_to a b r :
  a = x \/ b <> x ->
  In r (tips_consolidated_to w x y ts) -> tipper r = a -> tippee r = b ->
  In r ts.
Proof.
  intros H. apply pair_row_app, receiving_pair_none. exact H.
Qed.

(** The rows of a pair with neither [x] as tipper nor [x] as tippee are
    still those of the table after both consolidating statements. *)
Lemma pair_rows_consolidated a b r :
  a <> x -> b <> x ->
  In r (tips_consolidated w x y ts) -> tipper r = a -> tippee r = b ->
  In r ts.
Proof.
  intros Ha Hb Hr Ht He.
  apply (pair_rows_consolidated_to a b); auto.
  revert Hr Ht He. apply pair_row_app, giving_pair_none. auto.
Qed.

Lemma any_conserves_receiving Z :
  Z <> x -> Z <> y ->
  current_amount (take_over_tips w x y ts) Z x
  = current_amount ts Z x + current_amount ts Z y.
Proof.
  intros Hx Hy. unfold take_over_tips, ZERO_OUT_OLD_TIPS_GIVING.
  rewrite current_amount_app_none by (apply zero_giving_pair_none; assumption).
  unfold tips_zeroed_to, ZERO_OUT_OLD_TIPS_RECEIVING.
  rewrite current_amount_app_none by (apply zero_receiving_pair_none; assumption).
  unfold tips_consolidated, CONSOLIDATE_TIPS_GIVING.
  rewrite current_amount_app_none by (apply giving_pair_none; auto).
  apply receiving_current; auto using later0.
Qed.

Lemma any_conserves_giving Z :
  Z <> x -> Z <> y ->
  current_amount (take_over_tips w x y ts) x Z
  = current_amount ts x Z + current_amount ts y Z.
Proof.
  intros Hx Hy. unfold take_over_tips, ZERO_OUT_OLD_TIPS_GIVING.
  rewrite current_amount_app_none by (apply zero_giving_pair_none; assumption).
  unfold tips_zeroed_to, ZERO_OUT_OLD_TIPS_RECEIVING.
  rewrite current_amount_app_none by (apply zero_receiving_pair_none; auto).
  set (ts1 := tips_consolidated_to w x y ts).
  assert (E1 : forall a, current_amount ts1 a Z = current_amount ts a Z).
  { intros a. unfold ts1, tips_consolidated_to, CONSOLIDATE_TIPS_RECEIVING.
    apply current_amount_app_none, receiving_pair_none. auto. }
  unfold tips_consolidated. fold ts1. unfold CONSOLIDATE_TIPS_GIVING.
  assert (N : (x, Z) <> (y, Z)) by congruence.
  destruct (group_facts ts1 (negb (Z == y)) x Z y Z N) as [Hsum Hin].
  pose proof (giving_pair ts1 x y (mtime_default w 1) Z Hx) as Hpair.
  rewrite (proj2 (String.eqb_neq Z y) Hy) in Hsum, Hin, Hpair.
  cbn [negb andb] in Hsum, Hin, Hpair.
  destruct (filter (fun r => same_pair x Z r || same_pair y Z r)
                   (unique_tips ts1)) as [|r0 g] eqn:E.
  - rewrite current_amount_app_none by assumption.
    rewrite <- !E1. unfold current_amount.
    destruct (latest ts1 y Z) as [r|]; [|lia].
    destruct (proj2 (Hin r)). auto.
  - pose proof (latest_insert_pair ts1
                  (select_tips_giving x x y x y x (mtime_default w 1) ts1)
                  x Z (mtime_default w 1)) as L.
    rewrite Hpair in L. destruct L as (r & Lr & Hr & _).
    + intros r Hr Ht He. apply Hlater; [|lia].
      apply (pair_rows_consolidated_to x Z); auto.
    + intros r Hr. apply giving_rows in Hr. tauto.
    + unfold current_amount at 1. rewrite Lr.
      assert (In r (filter (same_pair x Z)
                      (select_tips_giving x x y x y x (mtime_default w 1) ts1)))
        as X by (apply filter_In; split;
                 [assumption|eapply latest_pair; eassumption]).
      rewrite Hpair in X. destruct X as [<-|[]]. simpl amount.
      rewrite Hsum, !E1. reflexivity.
Qed.

Lemma any_is_new r i :
  (i < 4)%nat -> mtime r = mtime_default w i -> ~ In r ts.
Proof.
  intros Hi E Hin. pose proof (Hlater r i Hin Hi). lia.
Qed.

(** A third party that had a current tip to [y] has a new one of [0]. *)
Lemma any_zero_to T :
  T <> x -> T <> y ->
  latest ts T y <> None ->
  exists r, latest (take_over_tips w x y ts) T y = Some r
            /\ amount r = 0 /\ ~ In r ts.
Proof.
  intros Hx Hy H. destruct (latest ts T y) as [r0|] eqn:E; [clear H|congruence].
  apply latest_spec in E. destruct E as (H0 & <- & Ey & _).
  unfold take_over_tips, ZERO_OUT_OLD_TIPS_GIVING.
  rewrite latest_app_none by (apply zero_giving_pair_none; assumption).
  unfold tips_zeroed_to, ZERO_OUT_OLD_TIPS_RECEIVING.
  set (ts2 := tips_consolidated w x y ts).
  assert (H2 : In r0 ts2).
  { unfold ts2, tips_consolidated, CONSOLIDATE_TIPS_GIVING,
      tips_consolidated_to, CONSOLIDATE_TIPS_RECEIVING.
    apply in_or_app. left. apply in_or_app. left. assumption. }
  pose proof (latest_insert_pair ts2
                (select_zero_receiving y (mtime_default w 2) ts2)
                (tipper r0) y (mtime_default w 2)) as L.
  destruct (zero_receiving_covers y (mtime_default w 2) ts2 r0 H2 Ey)
    as (r' & l & F).
  rewrite F in L. destruct L as (r & Lr & Hr & _).
  - intros r Hr Ht He. apply Hlater; [|lia].
    apply (pair_rows_consolidated (tipper r0) y); auto.
  - intros r Hr. apply zero_receiving_rows in Hr. tauto.
  - exists r. apply zero_receiving_rows in Hr. destruct Hr as (_ & A & M).
    repeat split; try assumption. apply (any_is_new r 2); [lia|assumption].
Qed.

(** A third party that [y] had a current tip to is given a new one of
    [0]. *)
Lemma any_zero_from T :
  T <> x -> T <> y ->
  latest ts y T <> None ->
  exists r, latest (take_over_tips w x y ts) y T = Some r
            /\ amount r = 0 /\ ~ In r ts.
Proof.
  intros Hx Hy H. destruct (latest ts y T) as [r0|] eqn:E; [clear H|congruence].
  apply latest_spec in E. destruct E as (H0 & Ey & <- & _).
  unfold take_over_tips, ZERO_OUT_OLD_TIPS_GIVING.
  set (ts3 := tips_zeroed_to w x y ts).
  assert (H3 : In r0 ts3).
  { unfold ts3, tips_zeroed_to, ZERO_OUT_OLD_TIPS_RECEIVING, tips_consolidated,
      CONSOLIDATE_TIPS_GIVING, tips_consolidated_to, CONSOLIDATE_TIPS_RECEIVING.
    apply in_or_app. left. apply in_or_app. left. apply in_or_app. left.
    assumption. }
  pose proof (latest_insert_pair ts3
                (select_zero_giving y (mtime_default w 3) ts3)
                y (tippee r0) (mtime_default w 3)) as L.
  destruct (zero_giving_covers y (mtime_default w 3) ts3 r0 H3 Ey)
    as (r' & l & F).
  rewrite F in L. destruct L as (r & Lr & Hr & _).
  - intros r Hr Ht He. apply Hlater; [|lia].
    apply (pair_rows_consolidated y (tippee r0)); auto.
    revert Hr Ht He. unfold ts3, tips_zeroed_to, ZERO_OUT_OLD_TIPS_RECEIVING.
    apply pair_row_app, zero_receiving_pair_none. assumption.
  - intros r Hr. apply zero_giving_rows in Hr. tauto.
  - exists r. apply zero_giving_rows in Hr. destruct Hr as (_ & A & M).
    repeat split; try assumption. apply (any_is_new r 3); [lia|assumption].
Qed.

End AnyStamps.

(** X17. Whatever the stamps of the four inserts among themselves, as
    long as the rows in the table are older: after a merge of [other]
    into another participant [x], for every third party [Z] the current
    amount from [Z] to [x] is what [Z] gave to [x] and to [other]
    together, and the current amount from [x] to [Z] is what [x] and
    [other] together gave to [Z]. *)
Theorem X17_third_party_sums_are_conserved
        w fuel x pf uid hc db db' other n :
  take_over w fuel x pf uid hc db = (Return tt, db') ->
  facts x pf uid db = Some (other, n) ->
  this_is_others_last_account_elsewhere n = true ->
  x <> other ->
  inserts_later w (tips db) ->
  forall Z, Z <> x -> Z <> other ->
    current_amount (tips db') Z x
    = current_amount (tips db) Z x + current_amount (tips db) Z other
    /\ current_amount (tips db') x Z
       = current_amount (tips db) x Z + current_amount (tips db) other Z.
Proof.
  intros Hrun Hfacts HB Hxy Hlater Z Hx Hy.
  rewrite (take_over_merged_tips _ _ _ _ _ _ _ _ _ _ Hrun Hfacts HB).
  split.
  - apply any_conserves_receiving; assumption.
  - apply any_conserves_giving; assumption.
Qed.

(** X18. Under the same conditions, every third party that had a
    current tip to [other] has a new current tip to it of amount [0],
    and every third party that [other] had a current tip to is given a
    new current tip of amount [0] by it. *)
Theorem X18_third_party_tips_are_zeroed
        w fuel x pf uid hc db db' other n :
  take_over w fuel x pf uid hc db = (Return tt, db') ->
  facts x pf uid db = Some (other, n) ->
  this_is_others_last_account_elsewhere n = true ->
  x <> other ->
  inserts_later w (tips db) ->
  forall T, T <> x -> T <> other ->
    (latest (tips db) T other <> None ->
     exists r, latest (tips db') T other = Some r
               /\ amount r = 0 /\ ~ In r (tips db))
    /\ (latest (tips db) other T <> None ->
        exists r, latest (tips db') other T = Some r
                  /\ amount r = 0 /\ ~ In r (tips db)).
Proof.
  intros Hrun Hfacts HB Hxy Hlater T Hx Hy.
  rewrite (take_over_merged_tips _ _ _ _ _ _ _ _ _ _ Hrun Hfacts HB).
  split.
  - apply any_zero_to; assumption.
  - apply any_zero_from; assumption.
Qed.

Ltac sample_inserts_later :=
  let r := fresh "r" in
  let i := fresh "i" in
  let H := fresh "H" in
  let Hi := fresh "Hi" in
  intros r i H Hi; simpl in H;
  repeat (destruct H as [<-|H]; [simpl; lia|]); destruct H.

(** X17 at the sample merge with one stamp for the four inserts. *)
Lemma X17_third_party_sums_are_conserved_witness :
  let db := Sample.last_account in
  let db' := snd (take_over Sample.world_one_stamp 5 "x" "github" "1" false
                            db) in
  current_amount (tips db') "a" "x"
  = current_amount (tips db) "a" "x" + current_amount (tips db) "a" "y"
  /\ current_amount (tips db') "x" "a"
     = current_amount (tips db) "x" "a" + current_amount (tips db) "y" "a".
Proof.
  intros db db'.
  apply (X17_third_party_sums_are_conserved Sample.world_one_stamp 5
           "x" "github" "1" false db db' "y"
           (mkNeedConfirmation false true false)).
  - run.
  - run.
  - reflexivity.
  - discriminate.
  - sample_inserts_later.
  - discriminate.
  - discriminate.
Defined.

(** X18 at the sample merge with one stamp for the four inserts. *)
Lemma X18_third_party_tips_are_zeroed_witness :
  let db := Sample.last_account in
  let db' := snd (take_over Sample.world_one_stamp 5 "x" "github" "1" false
                            db) in
  (latest (tips db) "a" "y" <> None ->
   exists r, latest (tips db') "a" "y" = Some r
             /\ amount r = 0 /\ ~ In r (tips db))
  /\ (latest (tips db) "y" "a" <> None ->
      exists r, latest (tips db') "y" "a" = Some r
                /\ amount r = 0 /\ ~ In r (tips db)).
Proof.
  intros db db'.
  apply (X18_third_party_tips_are_zeroed Sample.world_one_stamp 5
           "x" "github" "1" false db db' "y"
           (mkNeedConfirmation false true false)).
  - run.
  - run.
  - reflexivity.
  - discriminate.
  - sample_inserts_later.
  - discriminate.
  - discriminate.
Defined.
